(** * Verification of the package build descriptor (setup.py) and of the
      test module (tests/main_test.py) of test_databricks_asset_bundles.

    The build descriptor stamps a wheel with a local version identifier
    made from the current UTC time, and hands a metadata record to
    setuptools.  The development below embeds

    - the part of Python's [datetime] the script relies on (field ranges,
      proleptic Gregorian ordinals, subtraction, [strftime]),
    - the directory walk of setuptools' [find_packages],
    - the script itself, as a computation in a state-and-exception monad
      over the interpreter's process state (module search path, object
      heap, trace of external calls),
    - the skip condition and the assertion of [test_main]. *)

From Stdlib Require Import ZArith Lia Bool List Ascii String.
From stdpp Require Import base option list strings gmap.

Local Open Scope Z_scope.

(** ** Python's [datetime] *)

Module PyDatetime.

(** A naive datetime object, as returned by [datetime.datetime.utcnow()]. *)
Record datetime : Type := mkDatetime {
  year : Z;
  month : Z;
  day : Z;
  hour : Z;
  minute : Z;
  second : Z;
  microsecond : Z
}.

Definition MINYEAR : Z := 1.
Definition MAXYEAR : Z := 9999.

(** [-1] is a placeholder for indexing purposes, as in the library. *)
Definition _DAYS_IN_MONTH : list Z :=
  [-1; 31; 28; 31; 30; 31; 30; 31; 31; 30; 31; 30; 31].

(** [_DAYS_BEFORE_MONTH] is built by a running sum over
    [_DAYS_IN_MONTH[1:]]. *)
Fixpoint running_sum (dbm : Z) (dims : list Z) : list Z :=
  match dims with
  | [] => []
  | dim :: rest => dbm :: running_sum (dbm + dim) rest
  end.

Definition _DAYS_BEFORE_MONTH : list Z :=
  -1 :: running_sum 0 (tl _DAYS_IN_MONTH).

(** year -> true if leap year, else false. *)
Definition _is_leap (y : Z) : bool :=
  (y mod 4 =? 0) && (negb (y mod 100 =? 0) || (y mod 400 =? 0)).

(** year -> number of days before January 1st of year. *)
Definition _days_before_year (y : Z) : Z :=
  let y' := y - 1 in
  y' * 365 + y' / 4 - y' / 100 + y' / 400.

(** year, month -> number of days in that month in that year. *)
Definition _days_in_month (y m : Z) : Z :=
  if (m =? 2) && _is_leap y then 29
  else nth (Z.to_nat m) _DAYS_IN_MONTH (-1).

(** year, month -> number of days in year preceding first day of month. *)
Definition _days_before_month (y m : Z) : Z :=
  nth (Z.to_nat m) _DAYS_BEFORE_MONTH (-1)
  + (if (2 <? m) && _is_leap y then 1 else 0).

(** year, month, day -> ordinal, considering 01-Jan-0001 as day 1. *)
Definition _ymd2ord (y m d : Z) : Z :=
  _days_before_year y + _days_before_month y m + d.

(** The range checks of the constructor ([_check_date_fields] and
    [_check_time_fields]); every datetime object satisfies them. *)
Definition check_date_fields (y m d : Z) : bool :=
  (MINYEAR <=? y) && (y <=? MAXYEAR)
  && (1 <=? m) && (m <=? 12)
  && (1 <=? d) && (d <=? _days_in_month y m).

Definition check_time_fields (h mi s us : Z) : bool :=
  (0 <=? h) && (h <=? 23)
  && (0 <=? mi) && (mi <=? 59)
  && (0 <=? s) && (s <=? 59)
  && (0 <=? us) && (us <=? 999999).

Definition valid_datetime (t : datetime) : Prop :=
  check_date_fields (year t) (month t) (day t) = true
  /\ check_time_fields (hour t) (minute t) (second t) (microsecond t) = true.

Definition toordinal (t : datetime) : Z :=
  _ymd2ord (year t) (month t) (day t).

(** A [timedelta] is a signed count of microseconds; the library keeps it
    normalised as days, seconds and microseconds, and compares the
    normalised triples lexicographically. *)
Record timedelta : Type := mkTimedelta {
  td_days : Z;
  td_seconds : Z;
  td_microseconds : Z
}.

(** [timedelta(days, seconds, microseconds)] for integer arguments: the
    carries are propagated with floor division. *)
Definition timedelta_new (days seconds microseconds : Z) : timedelta :=
  let seconds := seconds + microseconds / 1000000 in
  let us := microseconds mod 1000000 in
  let days := days + seconds / 86400 in
  let s := seconds mod 86400 in
  mkTimedelta days s us.

(** [datetime.__sub__] on two datetimes. *)
Definition sub (a b : datetime) : timedelta :=
  let days1 := toordinal a in
  let days2 := toordinal b in
  let secs1 := second a + minute a * 60 + hour a * 3600 in
  let secs2 := second b + minute b * 60 + hour b * 3600 in
  timedelta_new (days1 - days2) (secs1 - secs2)
                (microsecond a - microsecond b).

(** [timedelta._cmp]: comparison of the state triples. *)
Definition lexc (c1 c2 : comparison) : comparison :=
  match c1 with Eq => c2 | _ => c1 end.

Definition timedelta_cmp (x y : timedelta) : comparison :=
  lexc (td_days x ?= td_days y)
    (lexc (td_seconds x ?= td_seconds y)
          (td_microseconds x ?= td_microseconds y)).

Definition timedelta_ge (x y : timedelta) : bool :=
  match timedelta_cmp x y with Lt => false | _ => true end.

(** *** Formatting *)

(** The character of a decimal digit. *)
Definition digit_char (d : Z) : ascii := ascii_of_N (48 + Z.to_N d).

(** Decimal representation of a non-negative integer (what the C
    conversion [%d] prints), least significant digit first into an
    accumulator. *)
Fixpoint decimal_acc (fuel : nat) (n : Z) (acc : string) : string :=
  match fuel with
  | O => acc
  | S fuel' =>
      let acc' := String (digit_char (n mod 10)) acc in
      if n <? 10 then acc' else decimal_acc fuel' (n / 10) acc'
  end.

Definition decimal (n : Z) : string :=
  decimal_acc (S (Z.to_nat n)) n "".

Fixpoint zeros (k : nat) : string :=
  match k with
  | O => ""
  | S k' => String "0" (zeros k')
  end.

(** Left padding with zeros up to a minimum width ([%0wd]); longer
    strings are left as they are. *)
Definition zfill (w : nat) (s : string) : string :=
  zeros (w - String.length s) +:+ s.

(** One conversion directive of [strftime], as the platform's C library
    carries it out: [%Y] is the year with century printed as a plain
    decimal number, without leading zeros (glibc prints the year 5 as "5");
    the others are two-digit zero-padded fields.  A directive the script
    does not use is copied to the output. *)
Definition directive (t : datetime) (c : ascii) : string :=
  if Ascii.eqb c "Y" then decimal (year t)
  else if Ascii.eqb c "m" then zfill 2 (decimal (month t))
  else if Ascii.eqb c "d" then zfill 2 (decimal (day t))
  else if Ascii.eqb c "H" then zfill 2 (decimal (hour t))
  else if Ascii.eqb c "M" then zfill 2 (decimal (minute t))
  else if Ascii.eqb c "S" then zfill 2 (decimal (second t))
  else if Ascii.eqb c "%" then "%"
  else String "%" (String c "").

Fixpoint strftime (t : datetime) (fmt : string) : string :=
  match fmt with
  | "" => ""
  | String c rest =>
      if Ascii.eqb c "%" then
        match rest with
        | "" => "%"
        | String d rest' => directive t d +:+ strftime t rest'
        end
      else String c (strftime t rest)
  end.

End PyDatetime.

Import PyDatetime.

(** ** The version stamp of setup.py *)

(** [local_version = datetime.datetime.utcnow().strftime("%Y%m%d.%H%M%S")],
    as a function of the clock reading [utcnow()] returned. *)
Definition local_version (now : datetime) : string :=
  strftime now "%Y%m%d.%H%M%S".

(** [test_databricks_asset_bundles.__version__ + "+" + local_version] *)
Definition full_version (base : string) (now : datetime) : string :=
  (base +:+ "+") +:+ local_version now.

(** ** setuptools' package discovery *)

Module Setuptools.

(** A directory tree: what [os.walk] and [os.path.isfile] observe.  The
    entries of a directory are listed in the order the operating system
    reports them. *)
#[warnings="-register-all"] Inductive fsnode : Type :=
  | File
  | Dir (entries : list (string * fsnode)).

Definition is_dir (n : fsnode) : bool :=
  match n with Dir _ => true | File => false end.

Definition is_file (n : fsnode) : bool :=
  match n with File => true | Dir _ => false end.

(** ['.' in dir] *)
Fixpoint has_dot (name : string) : bool :=
  match name with
  | "" => false
  | String c rest => Ascii.eqb c "." || has_dot rest
  end.

(** [os.path.isfile(os.path.join(path, '__init__.py'))] *)
Definition _looks_like_package (n : fsnode) : bool :=
  match n with
  | File => false
  | Dir entries =>
      existsb (fun e => String.eqb (fst e) "__init__.py" && is_file (snd e))
              entries
  end.

(** The test [_find_iter] applies to each sub-directory [dir] of the
    directory being visited: directories with a dot in their name and
    directories that do not look like a package are skipped together with
    everything below them. *)
Definition kept (e : string * fsnode) : bool :=
  is_dir (snd e) && negb (has_dot (fst e)) && _looks_like_package (snd e).

(** [fnmatch.fnmatchcase], as a function of the pattern first: a "*"
    stands for any run of characters, a "?" for any one character, every
    other character for itself (the patterns at hand hold no bracket
    expression). *)
Fixpoint fnmatchcase_pat (pat : string) : string -> bool :=
  match pat with
  | "" => fun name => match name with "" => true | String _ _ => false end
  | String p pat' =>
      if Ascii.eqb p "*" then
        fix star (name : string) : bool :=
          fnmatchcase_pat pat' name
          || match name with
             | "" => false
             | String _ rest => star rest
             end
      else
        fun name =>
          match name with
          | "" => false
          | String c rest =>
              (Ascii.eqb p "?" || Ascii.eqb p c) && fnmatchcase_pat pat' rest
          end
  end.

Definition fnmatchcase (name pat : string) : bool := fnmatchcase_pat pat name.

(** [_Filter]: calling it tells whether the item matches one of the
    patterns; [in] tells whether the item is one of the patterns. *)
Definition filter_call (patterns : list string) (item : string) : bool :=
  existsb (fnmatchcase item) patterns.

Definition filter_contains (patterns : list string) (item : string) : bool :=
  existsb (String.eqb item) patterns.

(** [PackageFinder.ALWAYS_EXCLUDE] *)
Definition ALWAYS_EXCLUDE : list string := ["ez_setup"; "*__pycache__"].

(** The two filters [find] builds for [find_packages(where=...)]:
    [exclude] from [ALWAYS_EXCLUDE] and the empty default, [include] from
    the default [('*',)]. *)
Definition exclude : string -> bool := filter_call ALWAYS_EXCLUDE.

Definition include : string -> bool := filter_call ["*"].

(** [f"{package}*" in exclude or f"{package}.*" in exclude] *)
Definition pruned (package : string) : bool :=
  filter_contains ALWAYS_EXCLUDE (package +:+ "*")
  || filter_contains ALWAYS_EXCLUDE (package +:+ ".*").

(** [PackageFinder._find_iter] over a top-down [os.walk]: in the directory
    being visited, each sub-directory that is kept is yielded when it
    passes [include] and not [exclude], and is walked into later unless it
    is pruned (also when it was excluded); the packages found in the
    directory being visited come first, then those of the sub-directories.
    [prefix] is the dotted name of the directory being visited, followed
    by a dot (empty at the root). *)
Fixpoint _find_iter (prefix : string) (root : fsnode) : list string :=
  match root with
  | File => []
  | Dir entries =>
      List.filter (fun package => include package && negb (exclude package))
                  (map (fun e => prefix +:+ fst e) (List.filter kept entries))
      ++ flat_map
           (fun e =>
              if kept e && negb (pruned (prefix +:+ fst e))
              then _find_iter ((prefix +:+ fst e) +:+ ".") (snd e)
              else [])
           entries
  end.

Definition lookup_entry (name : string) (n : fsnode) : option fsnode :=
  match n with
  | File => None
  | Dir entries =>
      snd <$> List.find (fun e => String.eqb (fst e) name) entries
  end.

(** The components of a path, split at the separator. *)
Fixpoint components (path : string) : list string :=
  match path with
  | "" => [""]
  | String c rest =>
      if Ascii.eqb c "/" then "" :: components rest
      else match components rest with
           | [] => [String c ""]
           | x :: xs => String c x :: xs
           end
  end.

(** Resolution of a relative path, given by its components, from the
    working directory; an empty component and "." stay in place. *)
Fixpoint resolve (cwd : fsnode) (path : list string) : option fsnode :=
  match path with
  | [] => Some cwd
  | c :: rest =>
      if String.eqb c "." || String.eqb c "" then resolve cwd rest
      else match lookup_entry c cwd with
           | Some n => resolve n rest
           | None => None
           end
  end.

(** [find_packages(where=...)]: the walk yields nothing when [where] is
    not a directory. *)
Definition find_packages (cwd : fsnode) (where_ : string) : list string :=
  match resolve cwd (components where_) with
  | Some root => _find_iter "" root
  | None => []
  end.

(** The dotted name of the package at a path below the root. *)
Fixpoint dotted (path : list string) : string :=
  match path with
  | [] => ""
  | [c] => c
  | c :: rest => (c +:+ ".") +:+ dotted rest
  end.

(** A sub-package the walk reaches: a directory that carries the marker
    file and has no dot in its name, reached from the root through
    directories that all do.  The path is the list of directory names from
    the root.  (A directory with the marker file that lies below a
    directory without one is not reached: the walk does not descend
    there.)  Whether a sub-package that is reached is also listed depends
    on [exclude]. *)
Fixpoint is_subpackage (root : fsnode) (path : list string) : Prop :=
  match path with
  | [] => False
  | c :: rest =>
      exists n, In (c, n) (match root with Dir es => es | File => [] end)
                /\ kept (c, n) = true
                /\ (rest = [] \/ is_subpackage n rest)
  end.

(** A directory, anywhere under the root, that satisfies the marker-file
    predicate. *)
Fixpoint is_marked_dir (root : fsnode) (path : list string) : Prop :=
  match path with
  | [] => False
  | c :: rest =>
      exists n, In (c, n) (match root with Dir es => es | File => [] end)
                /\ is_dir n = true
                /\ match rest with
                   | [] => _looks_like_package n = true
                   | _ => is_marked_dir n rest
                   end
  end.

End Setuptools.

Import Setuptools.

(** ** The interpreter state the script runs in *)

Module Py.

(** Heap locations are indices into the heap. *)
Abbreviation loc := nat.

(** Strings are immutable values; lists and dicts are objects on the heap,
    held by reference. *)
Inductive value : Type :=
  | VStr (s : string)
  | VRef (l : loc).

Inductive pyobj : Type :=
  | OList (items : list value)
  | ODict (entries : list (string * value)).

(** The keyword arguments of the call [setup(...)]. *)
Record metadata : Type := mkMetadata {
  name : string;
  version : string;
  url : string;
  author : string;
  description : string;
  packages : loc;
  package_dir : loc;
  entry_points : loc;
  install_requires : loc
}.

Inductive exn : Type :=
  | ImportError (module_name : string)
  | AttributeError (attribute : string)
  | TypeError.

(** Calls that leave the script. *)
Inductive event : Type :=
  | EvImport (module_name : string)
  | EvUtcnow
  | EvFindPackages
  | EvSetup (kwargs : metadata).

(** Process-wide state: [sys.path], the heap, and the calls made so far. *)
Record proc : Type := mkProc {
  sys_path : list string;
  heap : list pyobj;
  trace : list event
}.

(** What the expression [test_databricks_asset_bundles.__version__ + "+"]
    finds in a package that has been loaded: no attribute of that name, a
    value that is not a string (the addition of a string to it is a type
    error), or a string. *)
Inductive version_attr : Type :=
  | NoAttr
  | NotStr
  | Str (s : string).

(** The outcome of [import test_databricks_asset_bundles]: the import
    raises, or the package is loaded. *)
Inductive package_outcome : Type :=
  | ImportFails
  | Loaded (v : version_attr).

(** What the script reads from outside the process: the package being
    built, the clock, and the working directory.  The package is not among
    the sources at hand (the specification describes its base version as a
    string constant the package owns), so what importing it and reading
    its [__version__] gives is a parameter. *)
Record world : Type := mkWorld {
  package : package_outcome;
  utcnow : datetime;
  cwd : fsnode
}.

(** The base version, when the package loads and its [__version__] is a
    string. *)
Definition package_version (w : world) : option string :=
  match package w with
  | Loaded (Str s) => Some s
  | _ => None
  end.

(** State and exception monad. *)
Definition M (A : Type) : Type := proc -> (exn + A) * proc.

#[global] Instance M_ret : MRet M := fun A a st => (inr a, st).

#[global] Instance M_bind : MBind M := fun A B f c st =>
  match c st with
  | (inl e, st') => (inl e, st')
  | (inr a, st') => f a st'
  end.

Definition raise {A : Type} (e : exn) : M A := fun st => (inl e, st).

Definition log (ev : event) : M unit := fun st =>
  (inr tt, mkProc (sys_path st) (heap st) (trace st ++ [ev])).

(** [sys.path.append(p)] *)
Definition sys_path_append (p : string) : M unit := fun st =>
  (inr tt, mkProc (sys_path st ++ [p]) (heap st) (trace st)).

(** A list or dict display allocates a new object. *)
Definition alloc (o : pyobj) : M loc := fun st =>
  (inr (length (heap st)), mkProc (sys_path st) (heap st ++ [o]) (trace st)).


End Py.

Import Py.

(** ** setup.py *)

Definition package_name : string := "test_databricks_asset_bundles".

(** Line 16: [import test_databricks_asset_bundles]. *)
Definition import_package (w : world) : M version_attr :=
  log (EvImport package_name);;
  match package w with
  | Loaded v => mret v
  | ImportFails => raise (ImportError package_name)
  end.

(** Line 18: [datetime.datetime.utcnow()]. *)
Definition read_clock (w : world) : M datetime :=
  log EvUtcnow;; mret (utcnow w).

(** Line 24: [test_databricks_asset_bundles.__version__ + "+"], the read
    of the attribute and the first addition. *)
Definition read_version (v : version_attr) : M string :=
  match v with
  | Str s => mret s
  | NoAttr => raise (AttributeError "__version__")
  | NotStr => raise TypeError
  end.

(** Lines 13 to 18 and the [version=] argument of line 24, in the order
    the interpreter carries them out: the computation of the full version
    string. *)
Definition compute_full_version (w : world) : M string :=
  sys_path_append "./src";;
  v ← import_package w;
  now ← read_clock w;
  base ← read_version v;
  mret (full_version base now).

(** [find_packages(where="./src")] returns a new list. *)
Definition call_find_packages (w : world) : M loc :=
  log EvFindPackages;;
  alloc (OList (VStr <$> find_packages (cwd w) "./src")).

(** The call is recorded; the tool itself is outside the script. *)
Definition setup (kwargs : metadata) : M metadata :=
  log (EvSetup kwargs);; mret kwargs.

(** The whole script.  The keyword arguments are evaluated from left to
    right; the result is the record handed to [setup]. *)
Definition setup_py (w : world) : M metadata :=
  v ← compute_full_version w;
  pk ← call_find_packages w;
  pd ← alloc (ODict [("", VStr "src")]);
  ep ← (l ← alloc (OList [VStr "main=test_databricks_asset_bundles.main:main"]);
        alloc (ODict [("packages", VRef l)]));
  ir ← alloc (OList [VStr "setuptools"]);
  setup {| name := "test_databricks_asset_bundles";
           version := v;
           url := "https://databricks.com";
           author := "daniel.iyiola@godevsuite072.onmicrosoft.com";
           description := "wheel file based on test_databricks_asset_bundles/src";
           packages := pk;
           package_dir := pd;
           entry_points := ep;
           install_requires := ir |}.

(** *** Reading a record back from the heap *)

Definition as_str (v : value) : option string :=
  match v with VStr s => Some s | VRef _ => None end.

Definition read_str_list (h : list pyobj) (l : loc) : option (list string) :=
  match h !! l with
  | Some (OList items) => mapM as_str items
  | _ => None
  end.

Definition read_str_dict (h : list pyobj) (l : loc)
  : option (list (string * string)) :=
  match h !! l with
  | Some (ODict entries) =>
      mapM (fun e => s ← as_str (snd e); Some (fst e, s)) entries
  | _ => None
  end.

Definition read_list_dict (h : list pyobj) (l : loc)
  : option (list (string * list string)) :=
  match h !! l with
  | Some (ODict entries) =>
      mapM (fun e => match snd e with
                     | VRef l' => xs ← read_str_list h l'; Some (fst e, xs)
                     | VStr _ => None
                     end) entries
  | _ => None
  end.

(** The contents of a metadata record: every reference replaced by the
    value of the object it points to. *)
Record metadata_value : Type := mkMetadataValue {
  name_of : string;
  version_of : string;
  url_of : string;
  author_of : string;
  description_of : string;
  packages_of : list string;
  package_dir_of : list (string * string);
  entry_points_of : list (string * list string);
  install_requires_of : list string
}.

Definition snapshot (h : list pyobj) (r : metadata) : option metadata_value :=
  pk ← read_str_list h (packages r);
  pd ← read_str_dict h (package_dir r);
  ep ← read_list_dict h (entry_points r);
  ir ← read_str_list h (install_requires r);
  Some (mkMetadataValue (name r) (version r) (url r) (author r)
          (description r) pk pd ep ir).

(** The objects a value, an object and a record refer to. *)
Definition value_refs (v : value) : list loc :=
  match v with VRef l => [l] | VStr _ => [] end.

Definition obj_refs (o : pyobj) : list loc :=
  match o with
  | OList items => flat_map value_refs items
  | ODict entries => flat_map (fun e => value_refs (snd e)) entries
  end.

Definition roots (r : metadata) : list loc :=
  [packages r; package_dir r; entry_points r; install_requires r].

(** [reachable h l l']: object [l'] is reached from object [l] by
    following references in heap [h]. *)
Inductive reachable (h : list pyobj) : loc -> loc -> Prop :=
  | reach_here l : reachable h l l
  | reach_step l o l' l'' :
      h !! l = Some o -> In l' (obj_refs o) -> reachable h l' l'' ->
      reachable h l l''.

(** The mutable objects of a record. *)
Definition owns (h : list pyobj) (r : metadata) (l : loc) : Prop :=
  exists root, In root (roots r) /\ reachable h root l.

(** The record of values the script is meant to hand over, as a function
    of the base version, the clock reading and the directory tree. *)
Definition setup_kwargs (base : string) (now : datetime) (fs : fsnode)
  : metadata_value :=
  {| name_of := "test_databricks_asset_bundles";
     version_of := full_version base now;
     url_of := "https://databricks.com";
     author_of := "daniel.iyiola@godevsuite072.onmicrosoft.com";
     description_of := "wheel file based on test_databricks_asset_bundles/src";
     packages_of := find_packages fs "./src";
     package_dir_of := [("", "src")];
     entry_points_of :=
       [("packages", ["main=test_databricks_asset_bundles.main:main"])];
     install_requires_of := ["setuptools"] |}.

(** ** tests/main_test.py *)

Module MainTest.

Inductive outcome : Type :=
  | Skipped
  | Passed
  | Failed.

(** [os.getenv(key)] over [os.environ]. *)
Definition getenv (environ : gmap string string) (key : string)
  : option string :=
  environ !! key.

(** The condition of the [skipif] marker. *)
Definition skip_condition (environ : gmap string string) : bool :=
  bool_decide (getenv environ "CI" = Some "true")
  || bool_decide (getenv environ "GITHUB_ACTIONS" = Some "true").

(** The body of [test_main].  [get_spark] and [get_taxis] live in the
    package's [main] module, which is not among the sources at hand, so
    the value of [get_taxis(get_spark()).count()] is a parameter: the row
    count, or nothing when acquiring the session or loading the dataset
    raises. *)
Definition test_main_body (count : option Z) : outcome :=
  match count with
  | Some n => if 5 <? n then Passed else Failed
  | None => Failed
  end.

Definition test_main (environ : gmap string string) (count : option Z)
  : outcome :=
  if skip_condition environ then Skipped else test_main_body count.

(** [test_placeholder]: [assert True]. *)
Definition test_placeholder : outcome := Passed.

End MainTest.

Import MainTest.

(** ** Notions the properties are stated with *)

(** The [w]-digit positional representation of [n], zero-padded: the
    "YYYY", "MM", ... of the format description. *)
Fixpoint digits (w : nat) (n : Z) : string :=
  match w with
  | O => ""
  | S w' => digits w' (n / 10) +:+ String (digit_char (n mod 10)) ""
  end.

(** The zero-padded "YYYYMMDD.HHMMSS" rendering of a clock reading. *)
Definition yyyymmdd_hhmmss (t : datetime) : string :=
  digits 4 (year t) +:+ digits 2 (month t) +:+ digits 2 (day t)
  +:+ String "." (digits 2 (hour t) +:+ digits 2 (minute t)
                  +:+ digits 2 (second t)).

(** The part of the rendering after the year: "MMDD.HHMMSS". *)
Definition mmdd_hhmmss (t : datetime) : string :=
  digits 2 (month t) +:+ digits 2 (day t)
  +:+ String "." (digits 2 (hour t) +:+ digits 2 (minute t)
                  +:+ digits 2 (second t)).

(** ['+' in s] *)
Fixpoint has_plus (s : string) : bool :=
  match s with
  | "" => false
  | String c rest => Ascii.eqb c "+" || has_plus rest
  end.

Definition is_digit (c : ascii) : bool :=
  (48 <=? N_of_ascii c)%N && (N_of_ascii c <=? 57)%N.

(** Consumes exactly [k] digits at the front of [s]; returns the rest. *)
Fixpoint take_digits (k : nat) (s : string) : option string :=
  match k with
  | O => Some s
  | S k' =>
      match s with
      | String c rest => if is_digit c then take_digits k' rest else None
      | "" => None
      end
  end.

(** The pattern "8 digits, a literal dot, 6 digits", anchored at both
    ends. *)
Definition matches_suffix_pattern (s : string) : bool :=
  match take_digits 8 s with
  | Some (String c rest) =>
      Ascii.eqb c "." &&
      match take_digits 6 rest with
      | Some "" => true
      | _ => false
      end
  | _ => false
  end.

Definition EPOCH : datetime := mkDatetime 1970 1 1 0 0 0 0.

(** [timedelta(seconds=1)] *)
Definition one_second : timedelta := timedelta_new 0 1 0.

(** Reading [b] is at least one second later than reading [a]:
    [b - a >= timedelta(seconds=1)]. *)
Definition one_second_later (a b : datetime) : Prop :=
  timedelta_ge (sub b a) one_second = true.

(** The second a reading falls in, counted from the epoch:
    [(t - EPOCH) // timedelta(seconds=1)]. *)
Definition posix_second (t : datetime) : Z :=
  let d := sub t EPOCH in
  td_days d * 86400 + td_seconds d.

(** The length of a year in days. *)
Definition days_in_year (y : Z) : Z := if _is_leap y then 366 else 365.

(** Seconds since the start of the proleptic calendar, and comparison of
    two readings field by field down to the second. *)
Definition second_count (t : datetime) : Z :=
  toordinal t * 86400 + (second t + minute t * 60 + hour t * 3600).

Definition cmp_fields (a b : datetime) : comparison :=
  lexc (year a ?= year b)
    (lexc (month a ?= month b)
      (lexc (day a ?= day b)
        (lexc (hour a ?= hour b)
          (lexc (minute a ?= minute b) (second a ?= second b))))).

(** The record one run of the script builds when the heap holds [n]
    objects at its start, and the objects the run allocates, in order:
    the list of packages, the [package_dir] dict, the list inside
    [entry_points], the [entry_points] dict, the [install_requires] list. *)
Definition record_at (n : nat) (v : string) : metadata :=
  {| name := "test_databricks_asset_bundles";
     version := v;
     url := "https://databricks.com";
     author := "daniel.iyiola@godevsuite072.onmicrosoft.com";
     description := "wheel file based on test_databricks_asset_bundles/src";
     packages := n;
     package_dir := (n + 1)%nat;
     entry_points := (n + 3)%nat;
     install_requires := (n + 4)%nat |}.

Definition allocated (n : nat) (fs : fsnode) : list pyobj :=
  [ OList (VStr <$> find_packages fs "./src");
    ODict [("", VStr "src")];
    OList [VStr "main=test_databricks_asset_bundles.main:main"];
    ODict [("packages", VRef (n + 2)%nat)];
    OList [VStr "setuptools"] ].

(** A fresh interpreter. *)
Definition fresh_proc : proc := mkProc [] [] [].

(** A working directory whose [src] holds a directory [a] without marker
    file, which holds a directory [b] with one. *)
Definition nested_tree : fsnode :=
  Dir [("setup.py", File);
       ("src", Dir [("a", Dir [("b", Dir [("__init__.py", File)])])])].

(** The layout of the repository: the package sits directly under [src]. *)
Definition repo_tree : fsnode :=
  Dir [("setup.py", File);
       ("src", Dir [("test_databricks_asset_bundles",
                     Dir [("__init__.py", File); ("main.py", File)])]);
       ("tests", Dir [("main_test.py", File)])].

(** ** Further notions *)

(** Induction over directory trees, with the hypothesis available for
    every entry of a directory. *)
Section FsnodeInduction.

Variable P : fsnode -> Prop.
Hypothesis P_File : P File.
Hypothesis P_Dir :
  forall entries, Forall (fun e => P (snd e)) entries -> P (Dir entries).

Fixpoint fsnode_nested_ind (n : fsnode) : P n :=
  match n with
  | File => P_File
  | Dir entries =>
      P_Dir entries
        ((fix go (l : list (string * fsnode))
            : Forall (fun e => P (snd e)) l :=
            match l with
            | [] => @List.Forall_nil _ (fun e => P (snd e))
            | e :: l' =>
                @List.Forall_cons _ (fun e => P (snd e)) e l'
                  (fsnode_nested_ind (snd e)) (go l')
            end) entries)
  end.

End FsnodeInduction.

(** A tree as a file system presents it: within each directory, no two
    entries have the same name. *)
Fixpoint names_distinct (n : fsnode) : Prop :=
  match n with
  | File => True
  | Dir entries =>
      NoDup (map fst entries)
      /\ fold_right (fun e acc => names_distinct (snd e) /\ acc) True entries
  end.

(** A pattern without wildcard. *)
Fixpoint literal (pat : string) : bool :=
  match pat with
  | "" => true
  | String p pat' =>
      negb (Ascii.eqb p "*") && negb (Ascii.eqb p "?") && literal pat'
  end.

(** The last character of a string. *)
Fixpoint last_char (s : string) : option ascii :=
  match s with
  | "" => None
  | String c rest =>
      match rest with
      | "" => Some c
      | String _ _ => last_char rest
      end
  end.



(** The exception a run ends with, if any, and the events it adds to
    the trace. *)
Definition run_failure (w : world) : option exn :=
  match package w with
  | ImportFails => Some (ImportError package_name)
  | Loaded NoAttr => Some (AttributeError "__version__")
  | Loaded NotStr => Some TypeError
  | Loaded (Str _) => None
  end.



(** A record of values with another list of packages. *)
Definition with_packages (pk : list string) (v : metadata_value)
  : metadata_value :=
  mkMetadataValue (name_of v) (version_of v) (url_of v) (author_of v)
    (description_of v) pk (package_dir_of v) (entry_points_of v)
    (install_requires_of v).

Definition with_install_requires (ir : list string) (v : metadata_value)
  : metadata_value :=
  mkMetadataValue (name_of v) (version_of v) (url_of v) (author_of v)
    (description_of v) (packages_of v) (package_dir_of v) (entry_points_of v)
    ir.

(** A working directory whose [src] holds a package [pkg] with a
    sub-package [sub]. *)
Definition layered_tree : fsnode :=
  Dir [("src", Dir [("pkg", Dir [("__init__.py", File);
                                 ("sub", Dir [("__init__.py", File)])])])].

(** * Properties *)

(** ** Strings and decimal digits *)

Section Strings.

Lemma app_cons (c : ascii) (s1 s2 : string) :
  String c s1 +:+ s2 = String c (s1 +:+ s2).
Proof. reflexivity. Qed.

Lemma app_nil_left (s : string) : "" +:+ s = s.
Proof. reflexivity. Qed.

Lemma app_nil_right (s : string) : s +:+ "" = s.
Proof. induction s as [|c s IH]; [reflexivity|]. rewrite app_cons, IH. reflexivity. Qed.

Lemma app_assoc_str (s1 s2 s3 : string) :
  (s1 +:+ s2) +:+ s3 = s1 +:+ (s2 +:+ s3).
Proof.
  induction s1 as [|c s1 IH]; [reflexivity|].
  rewrite !app_cons, IH. reflexivity.
Qed.

Lemma length_app_str (s1 s2 : string) :
  String.length (s1 +:+ s2) = (String.length s1 + String.length s2)%nat.
Proof.
  induction s1 as [|c s1 IH]; [reflexivity|].
  rewrite app_cons. simpl. rewrite IH. reflexivity.
Qed.

(** Equal strings whose tails have equal lengths split at the same place. *)
Lemma app_inj_tail_length (x y s1 s2 : string) :
  String.length s1 = String.length s2 ->
  x +:+ s1 = y +:+ s2 -> x = y /\ s1 = s2.
Proof.
  intros Hlen. revert y.
  induction x as [|c x IH]; intros [|d y] Heq.
  - split; [reflexivity|exact Heq].
  - exfalso. apply (f_equal String.length) in Heq.
    rewrite app_nil_left, app_cons in Heq. simpl in Heq.
    rewrite length_app_str in Heq. lia.
  - exfalso. apply (f_equal String.length) in Heq.
    rewrite app_nil_left, app_cons in Heq. simpl in Heq.
    rewrite length_app_str in Heq. lia.
  - rewrite !app_cons in Heq. injection Heq as Hc Hrest.
    destruct (IH _ Hrest) as [-> ->]. subst. split; reflexivity.
Qed.

Lemma ascii_compare_refl (c : ascii) : Ascii.compare c c = Eq.
Proof. unfold Ascii.compare. apply N.compare_refl. Qed.

Lemma compare_cons (c : ascii) (s1 s2 : string) :
  String.compare (String c s1) (String c s2) = String.compare s1 s2.
Proof. simpl. rewrite ascii_compare_refl. reflexivity. Qed.

Lemma compare_refl_str (s : string) : String.compare s s = Eq.
Proof.
  induction s as [|c s IH]; [reflexivity|]. rewrite compare_cons. exact IH.
Qed.

(** A common prefix does not take part in the comparison. *)
Lemma compare_app_prefix (p s1 s2 : string) :
  String.compare (p +:+ s1) (p +:+ s2) = String.compare s1 s2.
Proof.
  induction p as [|c p IH]; [reflexivity|].
  rewrite !app_cons, compare_cons. exact IH.
Qed.

Lemma zeros_snoc (k : nat) : zeros k +:+ "0" = zeros (S k).
Proof.
  induction k as [|k IH]; [reflexivity|].
  change (zeros (S k)) with (String "0" (zeros k)).
  rewrite app_cons, IH. reflexivity.
Qed.

Lemma length_zeros (k : nat) : String.length (zeros k) = k.
Proof. induction k as [|k IH]; simpl; congruence. Qed.

Lemma has_plus_cons (c : ascii) (s : string) :
  has_plus (String c s) = Ascii.eqb c "+" || has_plus s.
Proof. reflexivity. Qed.

Lemma has_plus_app (a b : string) :
  has_plus (a +:+ b) = has_plus a || has_plus b.
Proof.
  induction a as [|c a IH]; [reflexivity|].
  rewrite app_cons. simpl. rewrite IH. apply orb_assoc.
Qed.

(** Strings that end in parts without a "+" split at the same "+". *)
Lemma split_last_plus (x1 : string) :
  forall (x2 y1 y2 : string),
    has_plus y1 = false -> has_plus y2 = false ->
    x1 +:+ String "+" y1 = x2 +:+ String "+" y2 -> x1 = x2 /\ y1 = y2.
Proof.
  induction x1 as [|c x1 IH]; intros [|d x2] y1 y2 H1 H2 Heq.
  - rewrite !app_nil_left in Heq. injection Heq as ->. split; reflexivity.
  - exfalso. rewrite app_nil_left, app_cons in Heq. injection Heq as _ ->.
    rewrite has_plus_app in H1. simpl in H1.
    rewrite orb_true_r in H1. discriminate.
  - exfalso. rewrite app_nil_left, app_cons in Heq. injection Heq as _ <-.
    rewrite has_plus_app in H2. simpl in H2.
    rewrite orb_true_r in H2. discriminate.
  - rewrite !app_cons in Heq. injection Heq as <- Heq.
    destruct (IH x2 y1 y2 H1 H2 Heq) as [-> ->]. split; reflexivity.
Qed.

End Strings.

Section Digits.

Ltac digit_cases d :=
  let H := fresh in
  assert (H : d = 0 \/ d = 1 \/ d = 2 \/ d = 3 \/ d = 4 \/ d = 5 \/ d = 6
              \/ d = 7 \/ d = 8 \/ d = 9) by lia;
  repeat (destruct H as [H | H]; [subst d|]); try subst d.

Lemma digit_char_compare (a b : Z) :
  0 <= a < 10 -> 0 <= b < 10 ->
  Ascii.compare (digit_char a) (digit_char b) = (a ?= b).
Proof.
  intros Ha Hb. unfold Ascii.compare, digit_char.
  rewrite !N_ascii_embedding by lia.
  rewrite <- Z2N.inj_compare by lia.
  destruct (N.compare_spec (Z.to_N a) (Z.to_N b)) as [H|H|H].
  - rewrite H. apply N.compare_refl.
  - apply N.compare_lt_iff. lia.
  - apply N.compare_gt_iff. lia.
Qed.

Lemma is_digit_digit_char (d : Z) :
  0 <= d < 10 -> is_digit (digit_char d) = true.
Proof. intros Hd. digit_cases d; reflexivity. Qed.

Lemma is_digit_mod10 (n : Z) : is_digit (digit_char (n mod 10)) = true.
Proof. apply is_digit_digit_char. apply Z.mod_pos_bound. lia. Qed.

Lemma digits_zero (k : nat) : digits k 0 = zeros k.
Proof.
  induction k as [|k IH]; [reflexivity|].
  simpl digits. change (0 / 10) with 0. rewrite IH. apply zeros_snoc.
Qed.

Lemma digits_small (k : nat) (n : Z) :
  0 <= n < 10 -> digits (S k) n = zeros k +:+ String (digit_char n) "".
Proof.
  intros Hn. simpl digits.
  rewrite Z.div_small, Z.mod_small by lia.
  rewrite digits_zero. reflexivity.
Qed.

Lemma length_digits (w : nat) (n : Z) : String.length (digits w n) = w.
Proof.
  revert n. induction w as [|w IH]; intros n; [reflexivity|].
  simpl digits. rewrite length_app_str, IH. simpl. lia.
Qed.

Lemma zfill_snoc (w : nat) (s : string) (c : ascii) :
  zfill (S w) (s +:+ String c "") = zfill w s +:+ String c "".
Proof.
  unfold zfill. rewrite length_app_str. simpl String.length.
  replace (S w - (String.length s + 1))%nat with (w - String.length s)%nat by lia.
  rewrite app_assoc_str. reflexivity.
Qed.

(** The accumulator loop prints the digits of [n] in front of [acc], and
    padding the result to a width that [n] fits in gives the positional
    representation. *)
Lemma decimal_acc_spec (fuel : nat) :
  forall (n : Z) (acc : string),
    0 <= n -> (Z.to_nat n < fuel)%nat ->
    exists s, decimal_acc fuel n acc = s +:+ acc
              /\ forall w, (1 <= w)%nat -> n < 10 ^ Z.of_nat w ->
                           zfill w s = digits w n.
Proof.
  induction fuel as [|fuel IH]; intros n acc Hn Hfuel; [lia|].
  simpl decimal_acc. destruct (n <? 10) eqn:Hlt.
  - apply Z.ltb_lt in Hlt. exists (String (digit_char (n mod 10)) "").
    split; [reflexivity|]. intros w Hw _.
    destruct w as [|w]; [lia|].
    rewrite Z.mod_small by lia. rewrite digits_small by lia.
    unfold zfill. simpl String.length.
    replace (S w - 1)%nat with w by lia. reflexivity.
  - apply Z.ltb_ge in Hlt.
    assert (Hdiv : 0 < n / 10 < n).
    { split; [apply Z.div_str_pos; lia | apply Z.div_lt; lia]. }
    destruct (IH (n / 10) (String (digit_char (n mod 10)) acc))
      as (s' & Heq & Hpad); [lia| lia |].
    exists (s' +:+ String (digit_char (n mod 10)) "").
    split.
    + rewrite Heq, app_assoc_str. reflexivity.
    + intros w Hw Hbound. destruct w as [|w]; [lia|].
      rewrite zfill_snoc. simpl digits. f_equal.
      assert (Hw' : (1 <= w)%nat).
      { destruct w; [|lia]. simpl in Hbound. lia. }
      apply Hpad; [exact Hw'|].
      rewrite Nat2Z.inj_succ, Z.pow_succ_r in Hbound by lia.
      apply Z.div_lt_upper_bound; lia.
Qed.

(** [%0wd] of a value that fits in [w] digits. *)
Lemma zfill_decimal (w : nat) (n : Z) :
  (1 <= w)%nat -> 0 <= n < 10 ^ Z.of_nat w ->
  zfill w (decimal n) = digits w n.
Proof.
  intros Hw [Hn Hb]. unfold decimal.
  destruct (decimal_acc_spec (S (Z.to_nat n)) n "" Hn) as (s & Heq & Hpad);
    [lia|].
  rewrite Heq, app_nil_right. apply Hpad; assumption.
Qed.

(** A value with more than [w] digits is printed in more than [w]
    characters. *)
Lemma decimal_acc_long (fuel : nat) :
  forall (n : Z) (acc : string) (w : nat),
    0 <= n -> (Z.to_nat n < fuel)%nat -> 10 ^ Z.of_nat w <= n ->
    (w + String.length acc < String.length (decimal_acc fuel n acc))%nat.
Proof.
  induction fuel as [|fuel IH]; intros n acc w Hn Hfuel Hw; [lia|].
  simpl decimal_acc. destruct (n <? 10) eqn:Hlt.
  - apply Z.ltb_lt in Hlt. destruct w as [|w]; [simpl; lia|].
    rewrite Nat2Z.inj_succ, Z.pow_succ_r in Hw by lia.
    pose proof (Z.pow_pos_nonneg 10 (Z.of_nat w) ltac:(lia) ltac:(lia)). lia.
  - apply Z.ltb_ge in Hlt.
    assert (Hdiv : 0 < n / 10 < n).
    { split; [apply Z.div_str_pos; lia | apply Z.div_lt; lia]. }
    destruct w as [|w].
    + specialize (IH (n / 10) (String (digit_char (n mod 10)) acc) 0%nat).
      simpl in IH. simpl. lia.
    + rewrite Nat2Z.inj_succ, Z.pow_succ_r in Hw by lia.
      specialize (IH (n / 10) (String (digit_char (n mod 10)) acc) w).
      simpl String.length in IH.
      assert (10 ^ Z.of_nat w <= n / 10) by (apply Z.div_le_lower_bound; lia).
      lia.
Qed.

(** Padding to four digits changes nothing from the year 1000 on. *)
Lemma zfill_year_from_1000 (y : Z) :
  1000 <= y -> zfill 4 (decimal y) = decimal y.
Proof.
  intros Hy. unfold zfill, decimal.
  pose proof (decimal_acc_long (S (Z.to_nat y)) y "" 3 ltac:(lia) ltac:(lia)
                ltac:(simpl; lia)) as Hlen.
  change (3 + String.length "")%nat with 3%nat in Hlen.
  replace (4 - String.length (decimal_acc (S (Z.to_nat y)) y ""))%nat
    with 0%nat by lia.
  reflexivity.
Qed.

Lemma lexc_div10 (n m : Z) (c : comparison) :
  lexc (n / 10 ?= m / 10) (lexc (n mod 10 ?= m mod 10) c) = lexc (n ?= m) c.
Proof.
  pose proof (Z.div_mod n 10 ltac:(lia)) as Hn.
  pose proof (Z.div_mod m 10 ltac:(lia)) as Hm.
  pose proof (Z.mod_pos_bound n 10 ltac:(lia)) as Hnb.
  pose proof (Z.mod_pos_bound m 10 ltac:(lia)) as Hmb.
  destruct (Z.compare_spec (n / 10) (m / 10)) as [Hq|Hq|Hq];
    destruct (Z.compare_spec (n mod 10) (m mod 10)) as [Hr|Hr|Hr];
    destruct (Z.compare_spec n m) as [Hc|Hc|Hc];
    simpl; try reflexivity; exfalso; lia.
Qed.

(** Fixed-width decimal fields compare as the numbers they print. *)
Lemma compare_digits (w : nat) :
  forall (n m : Z) (r1 r2 : string),
    0 <= n < 10 ^ Z.of_nat w -> 0 <= m < 10 ^ Z.of_nat w ->
    String.compare (digits w n +:+ r1) (digits w m +:+ r2)
    = lexc (n ?= m) (String.compare r1 r2).
Proof.
  induction w as [|w IH]; intros n m r1 r2 Hn Hm.
  - simpl in Hn, Hm. replace m with n by lia.
    rewrite Z.compare_refl. reflexivity.
  - rewrite Nat2Z.inj_succ, Z.pow_succ_r in Hn, Hm by lia.
    simpl digits. rewrite !app_assoc_str, !app_cons, !app_nil_left.
    rewrite IH by (split; [apply Z.div_pos; lia
                          | apply Z.div_lt_upper_bound; lia]).
    simpl String.compare.
    rewrite digit_char_compare by (apply Z.mod_pos_bound; lia).
    rewrite <- (lexc_div10 n m).
    destruct (n mod 10 ?= m mod 10); reflexivity.
Qed.

Lemma compare_digits_nil (w : nat) (n m : Z) :
  0 <= n < 10 ^ Z.of_nat w -> 0 <= m < 10 ^ Z.of_nat w ->
  String.compare (digits w n) (digits w m) = (n ?= m).
Proof.
  intros Hn Hm.
  rewrite <- (app_nil_right (digits w n)), <- (app_nil_right (digits w m)).
  rewrite compare_digits by assumption. simpl.
  destruct (n ?= m); reflexivity.
Qed.

(** Within the width, different numbers are printed differently. *)
Lemma digits_inj (w : nat) (n m : Z) :
  0 <= n < 10 ^ Z.of_nat w -> 0 <= m < 10 ^ Z.of_nat w ->
  digits w n = digits w m -> n = m.
Proof.
  intros Hn Hm Heq. apply Z.compare_eq.
  rewrite <- (compare_digits_nil w n m Hn Hm), Heq. apply compare_refl_str.
Qed.

Lemma decimal_inj (w : nat) (n m : Z) :
  (1 <= w)%nat ->
  0 <= n < 10 ^ Z.of_nat w -> 0 <= m < 10 ^ Z.of_nat w ->
  decimal n = decimal m -> n = m.
Proof.
  intros Hw Hn Hm Heq. apply (digits_inj w n m Hn Hm).
  rewrite <- !zfill_decimal by assumption. rewrite Heq. reflexivity.
Qed.

Lemma digit_not_plus (c : ascii) : is_digit c = true -> Ascii.eqb c "+" = false.
Proof.
  intros Hd. destruct (Ascii.eqb_spec c "+") as [-> | _]; [|reflexivity].
  discriminate Hd.
Qed.

Lemma has_plus_digits (w : nat) (n : Z) : has_plus (digits w n) = false.
Proof.
  revert n. induction w as [|w IH]; intros n; [reflexivity|].
  simpl digits. rewrite has_plus_app, IH. simpl.
  rewrite (digit_not_plus _ (is_digit_mod10 n)). reflexivity.
Qed.

Lemma has_plus_decimal_acc (fuel : nat) :
  forall (n : Z) (acc : string),
    has_plus (decimal_acc fuel n acc) = has_plus acc.
Proof.
  induction fuel as [|fuel IH]; intros n acc; [reflexivity|].
  simpl decimal_acc. destruct (n <? 10).
  - simpl. rewrite (digit_not_plus _ (is_digit_mod10 n)). reflexivity.
  - rewrite IH. simpl.
    rewrite (digit_not_plus _ (is_digit_mod10 n)). reflexivity.
Qed.

Lemma has_plus_decimal (n : Z) : has_plus (decimal n) = false.
Proof. unfold decimal. rewrite has_plus_decimal_acc. reflexivity. Qed.

End Digits.

(** ** The calendar *)

Section Calendar.

Ltac month_cases m :=
  let H := fresh in
  assert (H : m = 1 \/ m = 2 \/ m = 3 \/ m = 4 \/ m = 5 \/ m = 6 \/ m = 7
              \/ m = 8 \/ m = 9 \/ m = 10 \/ m = 11 \/ m = 12) by lia;
  repeat (destruct H as [H | H]; [subst m|]); try subst m.

Lemma check_date_fields_true (y m d : Z) :
  check_date_fields y m d = true ->
  1 <= y <= 9999 /\ 1 <= m <= 12 /\ 1 <= d <= _days_in_month y m.
Proof.
  unfold check_date_fields, MINYEAR, MAXYEAR. intros H.
  repeat (apply andb_prop in H; destruct H as [H ?]).
  repeat match goal with
         | Hle : (_ <=? _) = true |- _ => apply Z.leb_le in Hle
         end.
  lia.
Qed.

Lemma check_time_fields_true (h mi s us : Z) :
  check_time_fields h mi s us = true ->
  0 <= h <= 23 /\ 0 <= mi <= 59 /\ 0 <= s <= 59 /\ 0 <= us <= 999999.
Proof.
  unfold check_time_fields. intros H.
  repeat (apply andb_prop in H; destruct H as [H ?]).
  repeat match goal with
         | Hle : (_ <=? _) = true |- _ => apply Z.leb_le in Hle
         end.
  lia.
Qed.

Lemma days_in_month_bounds (y m : Z) :
  1 <= m <= 12 -> 28 <= _days_in_month y m <= 31.
Proof.
  intros Hm. unfold _days_in_month.
  month_cases m; destruct (_is_leap y); simpl; lia.
Qed.

Lemma days_before_year_succ (y : Z) :
  _days_before_year (y + 1) = _days_before_year y + days_in_year y.
Proof.
  unfold _days_before_year, days_in_year, _is_leap.
  replace (y + 1 - 1) with y by lia.
  destruct (y mod 4 =? 0) eqn:H4; destruct (y mod 100 =? 0) eqn:H100;
    destruct (y mod 400 =? 0) eqn:H400; simpl;
    rewrite ?Z.eqb_eq, ?Z.eqb_neq in *;
    revert H4 H100 H400; Z.div_mod_to_equations; lia.
Qed.

Lemma days_before_year_mono (y1 y2 : Z) :
  y1 <= y2 -> _days_before_year y1 <= _days_before_year y2.
Proof.
  unfold _days_before_year. intros H. Z.div_mod_to_equations. lia.
Qed.

(** The day of the year of a valid date lies within the year. *)
Lemma day_of_year_bounds (y m d : Z) :
  1 <= m <= 12 -> 1 <= d <= _days_in_month y m ->
  1 <= _days_before_month y m + d <= days_in_year y.
Proof.
  intros Hm. unfold _days_in_month, _days_before_month, days_in_year.
  month_cases m; destruct (_is_leap y); simpl; lia.
Qed.

(** Within a year, a later month starts after every day of an earlier one. *)
Lemma days_before_month_mono (y m1 m2 d1 : Z) :
  1 <= m1 <= 12 -> 1 <= m2 <= 12 -> m1 < m2 ->
  1 <= d1 <= _days_in_month y m1 ->
  _days_before_month y m1 + d1 <= _days_before_month y m2.
Proof.
  intros Hm1 Hm2 Hlt. unfold _days_in_month, _days_before_month.
  month_cases m1; month_cases m2; try lia;
    destruct (_is_leap y); simpl; lia.
Qed.

(** Ordinals are strictly increasing along the calendar. *)
Lemma ymd2ord_lt (y1 m1 d1 y2 m2 d2 : Z) :
  check_date_fields y1 m1 d1 = true ->
  check_date_fields y2 m2 d2 = true ->
  y1 < y2 \/ (y1 = y2 /\ (m1 < m2 \/ (m1 = m2 /\ d1 < d2))) ->
  _ymd2ord y1 m1 d1 < _ymd2ord y2 m2 d2.
Proof.
  intros H1 H2 Hlt.
  apply check_date_fields_true in H1 as (Hy1 & Hm1 & Hd1).
  apply check_date_fields_true in H2 as (Hy2 & Hm2 & Hd2).
  unfold _ymd2ord.
  destruct Hlt as [Hy | [-> [Hm | [-> Hd]]]].
  - pose proof (day_of_year_bounds y1 m1 d1 Hm1 Hd1).
    pose proof (day_of_year_bounds y2 m2 d2 Hm2 Hd2).
    pose proof (days_before_year_succ y1).
    pose proof (days_before_year_mono (y1 + 1) y2 ltac:(lia)).
    lia.
  - pose proof (days_before_month_mono y2 m1 m2 d1 Hm1 Hm2 Hm Hd1). lia.
  - lia.
Qed.

End Calendar.

(** ** Clock readings and their rendering *)

Section Readings.

Lemma valid_ranges (t : datetime) :
  valid_datetime t ->
  1 <= year t <= 9999 /\ 1 <= month t <= 12 /\ 1 <= day t <= 31
  /\ 0 <= hour t <= 23 /\ 0 <= minute t <= 59 /\ 0 <= second t <= 59
  /\ 0 <= microsecond t <= 999999.
Proof.
  intros [Hd Ht].
  apply check_date_fields_true in Hd as (Hy & Hm & Hd).
  apply check_time_fields_true in Ht.
  pose proof (days_in_month_bounds (year t) (month t) Hm). lia.
Qed.

Lemma local_version_unfold (t : datetime) :
  local_version t
  = decimal (year t) +:+ zfill 2 (decimal (month t))
    +:+ zfill 2 (decimal (day t))
    +:+ String "." (zfill 2 (decimal (hour t)) +:+ zfill 2 (decimal (minute t))
                    +:+ zfill 2 (decimal (second t)) +:+ "").
Proof. reflexivity. Qed.

(** On a datetime object the format prints the year as it is and the
    other fields zero-padded. *)
Lemma local_version_tail (t : datetime) :
  valid_datetime t -> local_version t = decimal (year t) +:+ mmdd_hhmmss t.
Proof.
  intros Hv. apply valid_ranges in Hv.
  rewrite local_version_unfold. unfold mmdd_hhmmss.
  rewrite app_nil_right.
  rewrite !zfill_decimal by (simpl; lia). reflexivity.
Qed.

Lemma yyyymmdd_split (t : datetime) :
  yyyymmdd_hhmmss t = digits 4 (year t) +:+ mmdd_hhmmss t.
Proof. reflexivity. Qed.

(** From the year 1000 on the year has its four digits. *)
Lemma local_version_digits (t : datetime) :
  valid_datetime t -> 1000 <= year t ->
  local_version t = yyyymmdd_hhmmss t.
Proof.
  intros Hv Hy. rewrite local_version_tail, yyyymmdd_split by assumption.
  apply valid_ranges in Hv.
  rewrite <- (zfill_year_from_1000 (year t) Hy).
  rewrite zfill_decimal by (simpl; lia). reflexivity.
Qed.

Lemma length_mmdd_hhmmss (t : datetime) :
  String.length (mmdd_hhmmss t) = 11%nat.
Proof.
  unfold mmdd_hhmmss.
  repeat (rewrite length_app_str || rewrite length_digits
          || simpl String.length).
  reflexivity.
Qed.

Lemma has_plus_local_version (t : datetime) :
  valid_datetime t -> has_plus (local_version t) = false.
Proof.
  intros Hv. rewrite local_version_tail by assumption. unfold mmdd_hhmmss.
  repeat (rewrite has_plus_app || rewrite has_plus_decimal
          || rewrite has_plus_digits || rewrite has_plus_cons).
  reflexivity.
Qed.

Lemma length_yyyymmdd_hhmmss (t : datetime) :
  String.length (yyyymmdd_hhmmss t) = 15%nat.
Proof.
  unfold yyyymmdd_hhmmss.
  repeat (rewrite length_app_str || rewrite length_digits
          || simpl String.length).
  reflexivity.
Qed.

Lemma pattern_yyyymmdd_hhmmss (t : datetime) :
  matches_suffix_pattern (yyyymmdd_hhmmss t) = true.
Proof.
  unfold yyyymmdd_hhmmss, matches_suffix_pattern.
  cbv [digits]. rewrite !app_nil_left, !app_assoc_str, !app_cons, !app_nil_left.
  cbv [take_digits]. rewrite !is_digit_mod10. reflexivity.
Qed.

(** The rendering compares as the fields do. *)
Lemma compare_yyyymmdd_hhmmss (a b : datetime) :
  valid_datetime a -> valid_datetime b ->
  String.compare (yyyymmdd_hhmmss a) (yyyymmdd_hhmmss b) = cmp_fields a b.
Proof.
  intros Ha Hb. apply valid_ranges in Ha, Hb.
  unfold yyyymmdd_hhmmss, cmp_fields.
  rewrite !compare_digits by (simpl; lia).
  rewrite compare_cons.
  rewrite !compare_digits by (simpl; lia).
  rewrite <- (app_nil_right (digits 2 (second a))).
  rewrite <- (app_nil_right (digits 2 (second b))).
  rewrite compare_digits by (simpl; lia).
  simpl String.compare.
  destruct (second a ?= second b); reflexivity.
Qed.

Lemma second_of_day_bounds (t : datetime) :
  valid_datetime t ->
  0 <= second t + minute t * 60 + hour t * 3600 < 86400.
Proof. intros Hv. apply valid_ranges in Hv. lia. Qed.

(** A reading whose fields come first lexicographically is earlier. *)
Lemma cmp_fields_lt (a b : datetime) :
  valid_datetime a -> valid_datetime b ->
  cmp_fields a b = Lt -> second_count a < second_count b.
Proof.
  intros Ha Hb Hcmp.
  pose proof (second_of_day_bounds a Ha) as Hsa.
  pose proof (second_of_day_bounds b Hb) as Hsb.
  pose proof (valid_ranges a Ha) as Hra.
  pose proof (valid_ranges b Hb) as Hrb.
  destruct Ha as [Hda _]. destruct Hb as [Hdb _].
  unfold second_count, toordinal. unfold cmp_fields in Hcmp.
  destruct (Z.compare_spec (year a) (year b)) as [Hy|Hy|Hy];
    simpl in Hcmp; try discriminate.
  2:{ pose proof (ymd2ord_lt _ _ _ _ _ _ Hda Hdb (or_introl Hy)). lia. }
  destruct (Z.compare_spec (month a) (month b)) as [Hm|Hm|Hm];
    simpl in Hcmp; try discriminate.
  2:{ pose proof (ymd2ord_lt _ _ _ _ _ _ Hda Hdb
                    (or_intror (conj Hy (or_introl Hm)))). lia. }
  destruct (Z.compare_spec (day a) (day b)) as [Hd|Hd|Hd];
    simpl in Hcmp; try discriminate.
  2:{ pose proof (ymd2ord_lt _ _ _ _ _ _ Hda Hdb
                    (or_intror (conj Hy (or_intror (conj Hm Hd))))). lia. }
  rewrite Hy, Hm, Hd.
  destruct (Z.compare_spec (hour a) (hour b)) as [Hh|Hh|Hh];
    simpl in Hcmp; try discriminate; [|lia].
  destruct (Z.compare_spec (minute a) (minute b)) as [Hmi|Hmi|Hmi];
    simpl in Hcmp; try discriminate; [|lia].
  destruct (Z.compare_spec (second a) (second b)); try discriminate. lia.
Qed.

Lemma cmp_fields_antisym (a b : datetime) :
  cmp_fields b a = CompOpp (cmp_fields a b).
Proof.
  unfold cmp_fields.
  rewrite (Z.compare_antisym (year a)), (Z.compare_antisym (month a)),
    (Z.compare_antisym (day a)), (Z.compare_antisym (hour a)),
    (Z.compare_antisym (minute a)), (Z.compare_antisym (second a)).
  destruct (year a ?= year b), (month a ?= month b), (day a ?= day b),
    (hour a ?= hour b), (minute a ?= minute b), (second a ?= second b);
    reflexivity.
Qed.

Lemma cmp_fields_eq (a b : datetime) :
  cmp_fields a b = Eq ->
  year a = year b /\ month a = month b /\ day a = day b
  /\ hour a = hour b /\ minute a = minute b /\ second a = second b.
Proof.
  unfold cmp_fields. intros H.
  destruct (Z.compare_spec (year a) (year b)); try discriminate.
  destruct (Z.compare_spec (month a) (month b)); try discriminate.
  destruct (Z.compare_spec (day a) (day b)); try discriminate.
  destruct (Z.compare_spec (hour a) (hour b)); try discriminate.
  destruct (Z.compare_spec (minute a) (minute b)); try discriminate.
  simpl in H. apply Z.compare_eq in H. tauto.
Qed.

(** Field order and time order coincide on datetime objects. *)
Lemma cmp_fields_second_count (a b : datetime) :
  valid_datetime a -> valid_datetime b ->
  cmp_fields a b = (second_count a ?= second_count b).
Proof.
  intros Ha Hb. destruct (cmp_fields a b) eqn:Hcmp.
  - apply cmp_fields_eq in Hcmp as (Hy & Hm & Hd & Hh & Hmi & Hs).
    unfold second_count, toordinal. rewrite Hy, Hm, Hd, Hh, Hmi, Hs.
    symmetry. apply Z.compare_refl.
  - symmetry. apply Z.compare_lt_iff. apply cmp_fields_lt; assumption.
  - symmetry. apply Z.compare_gt_iff. apply cmp_fields_lt; try assumption.
    rewrite cmp_fields_antisym, Hcmp. reflexivity.
Qed.

(** Equal stamps come from readings with equal fields down to the
    second, whatever the number of digits of the year. *)
Lemma local_version_fields (a b : datetime) :
  valid_datetime a -> valid_datetime b ->
  local_version a = local_version b -> cmp_fields a b = Eq.
Proof.
  intros Ha Hb Heq.
  rewrite !local_version_tail in Heq by assumption.
  apply app_inj_tail_length in Heq as [Hy Htail];
    [|rewrite !length_mmdd_hhmmss; reflexivity].
  pose proof (valid_ranges a Ha) as Hra.
  pose proof (valid_ranges b Hb) as Hrb.
  apply (decimal_inj 4) in Hy; [|lia|simpl; lia|simpl; lia].
  rewrite <- compare_yyyymmdd_hhmmss by assumption.
  rewrite !yyyymmdd_split, Hy, Htail. apply compare_refl_str.
Qed.

Lemma earlier_year (a b : datetime) :
  valid_datetime a -> valid_datetime b ->
  second_count a < second_count b -> year a <= year b.
Proof.
  intros Ha Hb Hlt.
  assert (Hcmp : cmp_fields a b = Lt).
  { rewrite cmp_fields_second_count by assumption.
    apply Z.compare_lt_iff. exact Hlt. }
  unfold cmp_fields in Hcmp.
  destruct (Z.compare_spec (year a) (year b)) as [H|H|H];
    [lia | lia | discriminate Hcmp].
Qed.

End Readings.

(** ** Differences of clock readings *)

Section Differences.

Lemma one_second_triple : one_second = mkTimedelta 0 1 0.
Proof. reflexivity. Qed.

(** A difference of at least one second puts the later reading in a later
    second. *)
Lemma one_second_later_count (a b : datetime) :
  valid_datetime a -> valid_datetime b ->
  one_second_later a b -> second_count a < second_count b.
Proof.
  intros Ha Hb Hge.
  pose proof (valid_ranges a Ha) as Hra.
  pose proof (valid_ranges b Hb) as Hrb.
  unfold one_second_later, timedelta_ge, timedelta_cmp in Hge.
  rewrite one_second_triple in Hge.
  unfold sub, timedelta_new in Hge. cbn [td_days td_seconds td_microseconds] in Hge.
  unfold second_count.
  set (oa := toordinal a) in *. set (ob := toordinal b) in *.
  set (sa := second a + minute a * 60 + hour a * 3600) in *.
  set (sb := second b + minute b * 60 + hour b * 3600) in *.
  set (du := microsecond b - microsecond a) in *.
  assert (Hdu : -1000000 < du < 1000000) by (unfold du; lia).
  clearbody oa ob sa sb du. clear Hra Hrb Ha Hb.
  set (s' := sb - sa + du / 1000000) in *.
  assert (Hs' : sb - sa - 1 <= s' <= sb - sa).
  { unfold s'. Z.div_mod_to_equations. lia. }
  clearbody s'.
  pose proof (Z.div_mod s' 86400 ltac:(lia)) as Hdm.
  pose proof (Z.mod_pos_bound s' 86400 ltac:(lia)) as Hmb.
  pose proof (Z.mod_pos_bound du 1000000 ltac:(lia)) as Hub.
  set (q := s' / 86400) in *. set (r := s' mod 86400) in *.
  set (u := du mod 1000000) in *.
  destruct (Z.compare_spec (ob - oa + q) 0) as [Hd|Hd|Hd];
    cbn [lexc] in Hge; try discriminate.
  - destruct (Z.compare_spec r 1) as [Hr|Hr|Hr];
      cbn [lexc] in Hge; try discriminate; lia.
  - lia.
Qed.

(** The second a datetime object falls in, from its own fields. *)
Lemma posix_second_count (t : datetime) :
  valid_datetime t ->
  posix_second t = second_count t - toordinal EPOCH * 86400.
Proof.
  intros Hv. pose proof (valid_ranges t Hv) as Hr.
  unfold posix_second, sub, timedelta_new, second_count.
  cbn [td_days td_seconds second minute hour microsecond EPOCH].
  replace ((microsecond t - 0) / 1000000) with 0
    by (symmetry; apply Z.div_small; lia).
  set (s := second t + minute t * 60 + hour t * 3600).
  replace (s - (0 + 0 * 60 + 0 * 3600) + 0) with s by lia.
  pose proof (Z.div_mod s 86400 ltac:(lia)). lia.
Qed.

End Differences.

(** ** The version stamp *)

Section VersionStamp.

Lemma full_version_app (base : string) (t : datetime) :
  full_version base t = base +:+ String "+" (local_version t).
Proof. unfold full_version. rewrite app_assoc_str. reflexivity. Qed.

Lemma compare_full_version (base : string) (a b : datetime) :
  valid_datetime a -> valid_datetime b ->
  1000 <= year a -> 1000 <= year b ->
  String.compare (full_version base a) (full_version base b)
  = (second_count a ?= second_count b).
Proof.
  intros Ha Hb Hya Hyb.
  rewrite !full_version_app, compare_app_prefix, compare_cons.
  rewrite !local_version_digits by assumption.
  rewrite compare_yyyymmdd_hhmmss by assumption.
  apply cmp_fields_second_count; assumption.
Qed.

(** A version string splits at its last "+": the stamp holds none. *)
Lemma full_version_split (base1 base2 : string) (a b : datetime) :
  valid_datetime a -> valid_datetime b ->
  full_version base1 a = full_version base2 b ->
  base1 = base2 /\ local_version a = local_version b.
Proof.
  intros Ha Hb Heq. rewrite !full_version_app in Heq.
  apply split_last_plus in Heq;
    [exact Heq | apply has_plus_local_version; assumption..].
Qed.

(** C1: with base version "0.0.1" and the clock frozen at
    2024-03-05 08:09:10 UTC, the full version string is
    "0.0.1+20240305.080910". *)
Theorem full_version_frozen_clock (us : Z) :
  full_version "0.0.1" (mkDatetime 2024 3 5 8 9 10 us)
  = "0.0.1+20240305.080910".
Proof. vm_compute. reflexivity. Qed.

(** C2, as amended: for every clock reading from the year 1000 on, the
    stamp is the zero-padded YYYYMMDD.HHMMSS rendering of the reading, it
    matches the pattern "8 digits, a dot, 6 digits", and the full version
    is the base version, a "+" and the stamp, in that order. *)
Theorem full_version_format (base : string) (now : datetime) :
  valid_datetime now -> 1000 <= year now ->
  local_version now = yyyymmdd_hhmmss now
  /\ matches_suffix_pattern (local_version now) = true
  /\ full_version base now = (base +:+ "+") +:+ local_version now.
Proof.
  intros Hv Hy. rewrite local_version_digits by assumption.
  split; [reflexivity|]. split; [apply pattern_yyyymmdd_hhmmss|].
  unfold full_version. rewrite local_version_digits by assumption.
  reflexivity.
Qed.

Lemma full_version_format_witness :
  let now := mkDatetime 1999 12 31 23 59 59 999999 in
  local_version now = yyyymmdd_hhmmss now
  /\ matches_suffix_pattern (local_version now) = true
  /\ full_version "1.2" now = ("1.2" +:+ "+") +:+ local_version now.
Proof.
  apply (full_version_format "1.2" (mkDatetime 1999 12 31 23 59 59 999999)).
  - split; reflexivity.
  - simpl. lia.
Defined.

(** C2, as stated, fails: the reading 0005-01-02 03:04:05 is a datetime
    object, its stamp has five digits before the dot, and the pattern does
    not match. *)
Lemma stamp_of_year_5_unpadded :
  let now := mkDatetime 5 1 2 3 4 5 0 in
  valid_datetime now
  /\ local_version now = "50102.030405"
  /\ local_version now <> yyyymmdd_hhmmss now
  /\ matches_suffix_pattern (local_version now) = false.
Proof.
  split; [split; reflexivity|]. split; [reflexivity|].
  split; [discriminate | reflexivity].
Qed.

(** C3, as amended: two builds of the same base version whose clock
    readings are at least one second apart get distinct version strings;
    when the earlier reading is in the year 1000 or later, the later build
    gets the lexicographically greater string. *)
Theorem full_version_strictly_increasing (base : string) (a b : datetime) :
  valid_datetime a -> valid_datetime b -> one_second_later a b ->
  full_version base a <> full_version base b
  /\ (1000 <= year a ->
      String.compare (full_version base a) (full_version base b) = Lt
      /\ String.compare (full_version base b) (full_version base a) = Gt).
Proof.
  intros Ha Hb Hlater.
  pose proof (one_second_later_count a b Ha Hb Hlater) as Hlt.
  split.
  - intros Heq. apply full_version_split in Heq as [_ Heq]; [|assumption..].
    apply local_version_fields in Heq; [|assumption..].
    rewrite cmp_fields_second_count in Heq by assumption.
    apply Z.compare_eq in Heq. lia.
  - intros Hya.
    pose proof (earlier_year a b Ha Hb Hlt) as Hyb.
    rewrite !compare_full_version by (assumption || lia).
    split; [apply Z.compare_lt_iff | apply Z.compare_gt_iff]; exact Hlt.
Qed.

Lemma full_version_strictly_increasing_witness :
  let a := mkDatetime 2023 12 31 23 59 59 500000 in
  let b := mkDatetime 2024 1 1 0 0 0 500000 in
  full_version "0.0.1" a <> full_version "0.0.1" b
  /\ String.compare (full_version "0.0.1" a) (full_version "0.0.1" b) = Lt
  /\ String.compare (full_version "0.0.1" b) (full_version "0.0.1" a) = Gt.
Proof.
  destruct (full_version_strictly_increasing "0.0.1"
              (mkDatetime 2023 12 31 23 59 59 500000)
              (mkDatetime 2024 1 1 0 0 0 500000)) as [Hne Hord].
  - split; reflexivity.
  - split; reflexivity.
  - reflexivity.
  - split; [exact Hne | apply Hord; simpl; lia].
Defined.

(** C3, as stated, fails: 1000-01-01 00:00:00 is one second later than
    0999-12-31 23:59:59, and its version string is the lexicographically
    smaller one. *)
Lemma order_fails_before_year_1000 :
  let a := mkDatetime 999 12 31 23 59 59 0 in
  let b := mkDatetime 1000 1 1 0 0 0 0 in
  valid_datetime a /\ valid_datetime b /\ one_second_later a b
  /\ full_version "0.0.1" a = "0.0.1+9991231.235959"
  /\ full_version "0.0.1" b = "0.0.1+10000101.000000"
  /\ String.compare (full_version "0.0.1" a) (full_version "0.0.1" b) = Gt.
Proof.
  split; [split; reflexivity|]. split; [split; reflexivity|].
  split; [reflexivity|]. split; [reflexivity|]. split; reflexivity.
Qed.

(** C4: two builds whose clock readings fall within the same second get
    the same stamp. *)
Theorem local_version_same_second (a b : datetime) :
  valid_datetime a -> valid_datetime b ->
  posix_second a = posix_second b ->
  local_version a = local_version b.
Proof.
  intros Ha Hb Hsame.
  rewrite !posix_second_count in Hsame by assumption.
  assert (Hcmp : cmp_fields a b = Eq).
  { rewrite cmp_fields_second_count by assumption.
    apply Z.compare_eq_iff. lia. }
  apply cmp_fields_eq in Hcmp as (Hy & Hm & Hd & Hh & Hmi & Hs).
  rewrite !local_version_tail by assumption.
  unfold mmdd_hhmmss. rewrite Hy, Hm, Hd, Hh, Hmi, Hs. reflexivity.
Qed.

Lemma local_version_same_second_witness :
  local_version (mkDatetime 2024 3 5 8 9 10 1)
  = local_version (mkDatetime 2024 3 5 8 9 10 999999).
Proof.
  apply (local_version_same_second
           (mkDatetime 2024 3 5 8 9 10 1) (mkDatetime 2024 3 5 8 9 10 999999)).
  - split; reflexivity.
  - split; reflexivity.
  - reflexivity.
Defined.

(** C8: whatever the base version and the clock reading, the full version
    string is not empty, and the strings of two builds at least one second
    apart differ. *)
Theorem full_version_nonempty_unique :
  (forall (base : string) (now : datetime), full_version base now <> "")
  /\ (forall (base1 base2 : string) (a b : datetime),
         valid_datetime a -> valid_datetime b -> one_second_later a b ->
         full_version base1 a <> full_version base2 b).
Proof.
  split.
  - intros base now. rewrite full_version_app. intros Heq.
    apply (f_equal String.length) in Heq.
    rewrite length_app_str in Heq. simpl in Heq. lia.
  - intros base1 base2 a b Ha Hb Hlater Heq.
    pose proof (one_second_later_count a b Ha Hb Hlater) as Hlt.
    apply full_version_split in Heq as [_ Heq]; [|assumption..].
    apply local_version_fields in Heq; [|assumption..].
    rewrite cmp_fields_second_count in Heq by assumption.
    apply Z.compare_eq in Heq. lia.
Qed.

Lemma full_version_nonempty_unique_witness :
  let a := mkDatetime 2024 2 29 23 59 59 0 in
  let b := mkDatetime 2024 3 1 0 0 0 0 in
  full_version "" a <> "" /\ full_version "" a <> full_version "0.0.1" b.
Proof.
  split.
  - apply (proj1 full_version_nonempty_unique).
  - apply (proj2 full_version_nonempty_unique "" "0.0.1"
             (mkDatetime 2024 2 29 23 59 59 0) (mkDatetime 2024 3 1 0 0 0 0)).
    + split; reflexivity.
    + split; reflexivity.
    + reflexivity.
Defined.

End VersionStamp.

(** ** Package discovery *)

Section Discovery.

Lemma fnmatch_literal (pat : string) :
  literal pat = true ->
  forall name, fnmatchcase_pat pat name = String.eqb pat name.
Proof.
  induction pat as [|p pat IH]; intros Hlit name.
  - destruct name; reflexivity.
  - simpl in Hlit.
    apply andb_prop in Hlit as [Hlit Hrest].
    apply andb_prop in Hlit as [Hstar Hq].
    apply negb_true_iff in Hstar, Hq.
    simpl. rewrite Hstar, Hq. destruct name as [|c name]; [reflexivity|].
    simpl. rewrite (IH Hrest). reflexivity.
Qed.

Lemma fnmatch_star_literal (lit : string) :
  literal lit = true ->
  forall name,
    fnmatchcase_pat (String "*" lit) name = true
    <-> exists q, name = q +:+ lit.
Proof.
  intros Hlit name.
  induction name as [|c name IH].
  - simpl. rewrite (fnmatch_literal lit Hlit), orb_false_r. split.
    + intros H. apply String.eqb_eq in H. exists "". rewrite H. reflexivity.
    + intros (q & Hq). apply String.eqb_eq.
      destruct q; [exact (eq_sym Hq) | discriminate Hq].
  - change (fnmatchcase_pat (String "*" lit) (String c name))
      with (fnmatchcase_pat lit (String c name)
            || fnmatchcase_pat (String "*" lit) name).
    rewrite (fnmatch_literal lit Hlit). split.
    + intros H. apply orb_true_iff in H as [H | H].
      * apply String.eqb_eq in H. exists "". rewrite H. reflexivity.
      * apply IH in H as (q & ->). exists (String c q). reflexivity.
    + intros (q & Hq). apply orb_true_iff. destruct q as [|d q].
      * left. apply String.eqb_eq. exact (eq_sym Hq).
      * right. rewrite app_cons in Hq. injection Hq as _ ->.
        apply IH. exists q. reflexivity.
Qed.

(** What [exclude] removes: the name "ez_setup" and the names that end in
    "__pycache__". *)
Lemma exclude_spec (package : string) :
  exclude package = true
  <-> package = "ez_setup" \/ exists q, package = q +:+ "__pycache__".
Proof.
  unfold exclude, filter_call, ALWAYS_EXCLUDE, fnmatchcase.
  cbn [existsb]. rewrite orb_false_r, orb_true_iff.
  rewrite (fnmatch_literal "ez_setup" eq_refl).
  rewrite (fnmatch_star_literal "__pycache__" eq_refl).
  rewrite String.eqb_eq. split; intros [H | H]; auto.
Qed.

Lemma include_all (package : string) : include package = true.
Proof.
  unfold include, filter_call, fnmatchcase. simpl. rewrite orb_false_r.
  induction package as [|c rest IH]; [reflexivity|]. simpl. exact IH.
Qed.

Lemma last_char_snoc (s : string) (c : ascii) :
  last_char (s +:+ String c "") = Some c.
Proof.
  induction s as [|d s IH]; [reflexivity|].
  rewrite app_cons. simpl last_char.
  destruct (s +:+ String c "") eqn:E; [destruct s; discriminate E|].
  exact IH.
Qed.

(** No package name followed by a "*" is one of the patterns, so the walk
    is never cut short below a kept directory. *)
Lemma never_pruned (package : string) : pruned package = false.
Proof.
  assert (Hstar : forall s pat,
             last_char pat <> Some "*"%char ->
             String.eqb (s +:+ "*") pat = false).
  { intros s pat Hpat. apply String.eqb_neq. intros Heq. apply Hpat.
    rewrite <- Heq. apply last_char_snoc. }
  unfold pruned, filter_contains, ALWAYS_EXCLUDE. simpl.
  replace (package +:+ ".*") with ((package +:+ ".") +:+ "*")
    by (rewrite app_assoc_str; reflexivity).
  rewrite !Hstar by (simpl; discriminate). reflexivity.
Qed.

(** The walk with the two constant filters carried out. *)
Lemma find_iter_unfold (prefix : string) (entries : list (string * fsnode)) :
  _find_iter prefix (Dir entries)
  = List.filter (fun package => negb (exclude package))
                (map (fun e => prefix +:+ fst e) (List.filter kept entries))
    ++ flat_map
         (fun e => if kept e
                   then _find_iter ((prefix +:+ fst e) +:+ ".") (snd e)
                   else [])
         entries.
Proof.
  cbn [_find_iter]. f_equal.
  - apply filter_ext. intros package. rewrite include_all. reflexivity.
  - apply flat_map_ext. intros e. rewrite never_pruned, andb_true_r.
    reflexivity.
Qed.

Lemma find_iter_kept (prefix : string) (entries : list (string * fsnode))
      (e : string * fsnode) :
  In e entries -> kept e = true -> exclude (prefix +:+ fst e) = false ->
  In (prefix +:+ fst e) (_find_iter prefix (Dir entries)).
Proof.
  intros Hin Hkept Hex. rewrite find_iter_unfold. apply in_or_app. left.
  apply filter_In. split; [|rewrite Hex; reflexivity].
  apply in_map_iff. exists e. split; [reflexivity|].
  apply filter_In. split; assumption.
Qed.

Lemma find_iter_descend (prefix : string) (entries : list (string * fsnode))
      (e : string * fsnode) (p : string) :
  In e entries -> kept e = true ->
  In p (_find_iter ((prefix +:+ fst e) +:+ ".") (snd e)) ->
  In p (_find_iter prefix (Dir entries)).
Proof.
  intros Hin Hkept Hp. rewrite find_iter_unfold. apply in_or_app. right.
  apply in_flat_map. exists e. split; [exact Hin|].
  rewrite Hkept. exact Hp.
Qed.

(** The walk yields every sub-package it reaches whose dotted name is not
    excluded. *)
Lemma find_iter_complete (path : list string) :
  forall (prefix : string) (root : fsnode),
    is_subpackage root path ->
    exclude (prefix +:+ dotted path) = false ->
    In (prefix +:+ dotted path) (_find_iter prefix root).
Proof.
  induction path as [|c rest IH]; intros prefix root; [intros []|].
  intros (n & Hin & Hkept & Hrest) Hex.
  destruct root as [|entries]; [destruct Hin|].
  destruct rest as [|c' rest'].
  - apply (find_iter_kept prefix entries (c, n) Hin Hkept Hex).
  - destruct Hrest as [Hnil | Hsub]; [discriminate|].
    apply (find_iter_descend prefix entries (c, n) _ Hin Hkept).
    specialize (IH ((prefix +:+ c) +:+ ".") n Hsub).
    change (dotted (c :: c' :: rest'))
      with ((c +:+ ".") +:+ dotted (c' :: rest')) in *.
    rewrite <- !app_assoc_str in *. apply IH. exact Hex.
Qed.

Lemma find_packages_complete (cwd src : fsnode) (where_ : string)
      (path : list string) :
  resolve cwd (components where_) = Some src ->
  is_subpackage src path ->
  exclude (dotted path) = false ->
  In (dotted path) (find_packages cwd where_).
Proof.
  intros Hsrc Hsub Hex. unfold find_packages. rewrite Hsrc.
  apply (find_iter_complete path "" src Hsub Hex).
Qed.

End Discovery.

(** ** Runs of the script *)

Section Script.

Lemma package_version_Some (w : world) (base : string) :
  package_version w = Some base <-> package w = Loaded (Str base).
Proof.
  unfold package_version. destruct (package w) as [|[| |s]]; split;
    intros H; try discriminate; injection H as ->; reflexivity.
Qed.

Lemma package_version_None (w : world) :
  package_version w = None <-> run_failure w <> None.
Proof.
  unfold package_version, run_failure.
  destruct (package w) as [|[| |s]]; split; intros H;
    try discriminate; try reflexivity; congruence.
Qed.

Lemma compute_full_version_run (w : world) (st : proc) :
  compute_full_version w st =
  (match package w with
   | ImportFails => inl (ImportError package_name)
   | Loaded NoAttr => inl (AttributeError "__version__")
   | Loaded NotStr => inl TypeError
   | Loaded (Str base) => inr (full_version base (utcnow w))
   end,
   mkProc (sys_path st ++ ["./src"]) (heap st)
          (trace st ++ match package w with
                       | ImportFails => [EvImport package_name]
                       | Loaded _ => [EvImport package_name; EvUtcnow]
                       end)).
Proof.
  unfold compute_full_version, import_package, read_clock, read_version,
    sys_path_append, log, raise, mbind, M_bind, mret, M_ret.
  destruct (package w) as [|[| |s]]; simpl; rewrite <- ?app_assoc;
    reflexivity.
Qed.

(** A run in which the package loads and has a string version: its
    result, and the state it leaves. *)
Lemma setup_py_run (w : world) (st : proc) (base : string) :
  package_version w = Some base ->
  let n := length (heap st) in
  let r := record_at n (full_version base (utcnow w)) in
  setup_py w st =
  (inr r,
   mkProc (sys_path st ++ ["./src"]) (heap st ++ allocated n (cwd w))
          (trace st ++ [EvImport package_name; EvUtcnow; EvFindPackages;
                        EvSetup r])).
Proof.
  intros Hload n r. apply package_version_Some in Hload. unfold setup_py.
  unfold mbind at 1. unfold M_bind at 1.
  rewrite compute_full_version_run, Hload.
  unfold call_find_packages, setup, alloc, log, mbind, M_bind, mret, M_ret.
  simpl. rewrite !length_app. simpl.
  replace (length (heap st) + 1 + 1 + 1 + 1)%nat with (n + 4)%nat
    by (unfold n; lia).
  replace (length (heap st) + 1 + 1 + 1)%nat with (n + 3)%nat by (unfold n; lia).
  replace (length (heap st) + 1 + 1)%nat with (n + 2)%nat by (unfold n; lia).
  fold n. unfold r, record_at, allocated.
  rewrite <- !app_assoc. simpl. reflexivity.
Qed.


End Script.

(** ** Records on the heap *)

Section Heap.

Lemma lookup_allocated (h0 objs ext : list pyobj) (k : nat) (o : pyobj) :
  objs !! k = Some o -> (h0 ++ objs ++ ext) !! (length h0 + k)%nat = Some o.
Proof.
  intros Hk. rewrite lookup_app_r by lia.
  replace (length h0 + k - length h0)%nat with k by lia.
  apply lookup_app_l_Some. exact Hk.
Qed.

Lemma lookup_allocated_0 (h0 objs ext : list pyobj) (o : pyobj) :
  objs !! 0%nat = Some o -> (h0 ++ objs ++ ext) !! length h0 = Some o.
Proof.
  intros Hk. rewrite <- (Nat.add_0_r (length h0)).
  apply lookup_allocated. exact Hk.
Qed.

Lemma mapM_as_str (l : list string) : mapM as_str (VStr <$> l) = Some l.
Proof.
  induction l as [|x l IH]; [reflexivity|].
  rewrite fmap_cons. cbn [mapM]. simpl. rewrite IH. reflexivity.
Qed.

Lemma refs_of_strings (l : list string) :
  flat_map value_refs (VStr <$> l) = [].
Proof. induction l as [|x l IH]; [reflexivity|]. simpl. exact IH. Qed.

(** What a record reads back as, whatever is allocated after it. *)
Lemma snapshot_record_at (h0 ext : list pyobj) (fs : fsnode) (v : string) :
  snapshot (h0 ++ allocated (length h0) fs ++ ext) (record_at (length h0) v)
  = Some (mkMetadataValue
            "test_databricks_asset_bundles" v "https://databricks.com"
            "daniel.iyiola@godevsuite072.onmicrosoft.com"
            "wheel file based on test_databricks_asset_bundles/src"
            (find_packages fs "./src")
            [("", "src")]
            [("packages", ["main=test_databricks_asset_bundles.main:main"])]
            ["setuptools"]).
Proof.
  unfold snapshot, read_str_list, read_str_dict, read_list_dict, record_at.
  cbn [packages package_dir entry_points install_requires name version url
       author description].
  rewrite (lookup_allocated_0 h0 (allocated (length h0) fs) ext _ eq_refl).
  rewrite (lookup_allocated h0 (allocated (length h0) fs) ext 1 _ eq_refl).
  rewrite (lookup_allocated h0 (allocated (length h0) fs) ext 3 _ eq_refl).
  rewrite (lookup_allocated h0 (allocated (length h0) fs) ext 4 _ eq_refl).
  rewrite mapM_as_str.
  cbn [mapM mbind option_bind mret option_ret fst snd as_str].
  unfold read_str_list.
  rewrite (lookup_allocated h0 (allocated (length h0) fs) ext 2 _ eq_refl).
  reflexivity.
Qed.

(** Writing to an object outside a run's allocation leaves its record as
    it was. *)
Lemma snapshot_insert_outside (h0 ext : list pyobj) (fs : fsnode)
      (v : string) (l : loc) (o : pyobj) :
  ~ (length h0 <= l < length h0 + 5)%nat ->
  snapshot (<[l := o]> (h0 ++ allocated (length h0) fs ++ ext))
           (record_at (length h0) v)
  = snapshot (h0 ++ allocated (length h0) fs ++ ext) (record_at (length h0) v).
Proof.
  intros Hout.
  unfold snapshot, read_str_list, read_str_dict, read_list_dict, record_at.
  cbn [packages package_dir entry_points install_requires name version url
       author description].
  rewrite !list_lookup_insert_ne by lia.
  rewrite (lookup_allocated h0 (allocated (length h0) fs) ext 3 _ eq_refl).
  cbn [mapM mbind option_bind mret option_ret fst snd as_str].
  unfold read_str_list.
  rewrite !list_lookup_insert_ne by lia. reflexivity.
Qed.

Lemma reachable_leaf (h : list pyobj) (l l' : loc) (o : pyobj) :
  h !! l = Some o -> obj_refs o = [] -> reachable h l l' -> l' = l.
Proof.
  intros Hl Hrefs Hreach. destruct Hreach as [|l o' l1 l2 Hl' Hin _].
  - reflexivity.
  - rewrite Hl in Hl'. injection Hl' as <-. rewrite Hrefs in Hin.
    destruct Hin.
Qed.

(** The objects of a record are the ones its run allocated. *)
Lemma owns_allocated (h0 ext : list pyobj) (fs : fsnode) (v : string)
      (l : loc) :
  owns (h0 ++ allocated (length h0) fs ++ ext) (record_at (length h0) v) l ->
  (length h0 <= l < length h0 + 5)%nat.
Proof.
  pose proof (lookup_allocated_0 h0 (allocated (length h0) fs) ext _ eq_refl)
    as L0.
  pose proof (lookup_allocated h0 (allocated (length h0) fs) ext 1 _ eq_refl)
    as L1.
  pose proof (lookup_allocated h0 (allocated (length h0) fs) ext 2 _ eq_refl)
    as L2.
  pose proof (lookup_allocated h0 (allocated (length h0) fs) ext 3 _ eq_refl)
    as L3.
  pose proof (lookup_allocated h0 (allocated (length h0) fs) ext 4 _ eq_refl)
    as L4.
  intros (root & Hroot & Hreach). unfold roots, record_at in Hroot.
  cbn [packages package_dir entry_points install_requires In] in Hroot.
  destruct Hroot as [<- | [<- | [<- | [<- | []]]]].
  - apply (reachable_leaf _ _ _ _ L0) in Hreach; [lia|].
    simpl. apply refs_of_strings.
  - apply (reachable_leaf _ _ _ _ L1) in Hreach; [lia|reflexivity].
  - inversion Hreach as [|l0 o l1 l2 Hl Hin Hrest]; subst; [lia|].
    rewrite L3 in Hl. injection Hl as <-. simpl in Hin.
    destruct Hin as [<- | []].
    apply (reachable_leaf _ _ _ _ L2) in Hrest; [lia|reflexivity].
  - apply (reachable_leaf _ _ _ _ L4) in Hreach; [lia|reflexivity].
Qed.

(** The same facts for a heap given up to equality. *)
Lemma snapshot_in (h h0 ext : list pyobj) (fs : fsnode) (base : string)
      (now : datetime) :
  h = h0 ++ allocated (length h0) fs ++ ext ->
  snapshot h (record_at (length h0) (full_version base now))
  = Some (setup_kwargs base now fs).
Proof. intros ->. apply snapshot_record_at. Qed.

Lemma owns_in (h h0 ext : list pyobj) (fs : fsnode) (v : string) (l : loc) :
  h = h0 ++ allocated (length h0) fs ++ ext ->
  owns h (record_at (length h0) v) l ->
  (length h0 <= l < length h0 + 5)%nat.
Proof. intros ->. apply owns_allocated. Qed.

Lemma snapshot_insert_in (h h0 ext : list pyobj) (fs : fsnode) (v : string)
      (l : loc) (o : pyobj) :
  h = h0 ++ allocated (length h0) fs ++ ext ->
  ~ (length h0 <= l < length h0 + 5)%nat ->
  snapshot (<[l := o]> h) (record_at (length h0) v)
  = snapshot h (record_at (length h0) v).
Proof. intros ->. apply snapshot_insert_outside. Qed.

End Heap.

(** ** The build descriptor *)

Section BuildDescriptor.

(** C5, as amended: when ./src holds a sub-package that the walk reaches
    (a directory that carries the marker file and has no dot in its name,
    reached through directories that all do) and that is not excluded by
    name, the record handed to the packaging tool has a non-empty list of
    packages (the sub-package is on it). *)
Theorem packages_nonempty (w : world) (st : proc) (base : string)
        (src : fsnode) (path : list string) :
  package_version w = Some base ->
  resolve (cwd w) (components "./src") = Some src ->
  is_subpackage src path ->
  exclude (dotted path) = false ->
  exists r st' pk,
    setup_py w st = (inr r, st')
    /\ In (EvSetup r) (trace st')
    /\ read_str_list (heap st') (packages r) = Some pk
    /\ In (dotted path) pk
    /\ pk <> [].
Proof.
  intros Hload Hsrc Hsub Hex.
  pose proof (setup_py_run w st base Hload) as Hrun. cbv zeta in Hrun.
  pose proof (find_packages_complete _ _ _ _ Hsrc Hsub Hex) as Hfound.
  eexists _, _, (find_packages (cwd w) "./src").
  split; [exact Hrun|]. cbn [trace heap]. split; [|split; [|split]].
  - apply in_or_app. right. simpl. tauto.
  - unfold read_str_list, record_at. cbn [packages].
    rewrite <- (app_nil_r (allocated _ _)).
    rewrite (lookup_allocated_0 (heap st)
               (allocated (length (heap st)) (cwd w)) [] _ eq_refl).
    apply mapM_as_str.
  - exact Hfound.
  - intros Hnil. rewrite Hnil in Hfound. destruct Hfound.
Qed.

Lemma packages_nonempty_witness :
  exists r st' pk,
    setup_py (mkWorld (Loaded (Str "0.0.1")) EPOCH repo_tree) fresh_proc
    = (inr r, st')
    /\ In (EvSetup r) (trace st')
    /\ read_str_list (heap st') (packages r) = Some pk
    /\ In "test_databricks_asset_bundles" pk
    /\ pk <> [].
Proof.
  apply (packages_nonempty
           (mkWorld (Loaded (Str "0.0.1")) EPOCH repo_tree) fresh_proc
           "0.0.1"
           (Dir [("test_databricks_asset_bundles",
                  Dir [("__init__.py", File); ("main.py", File)])])
           ["test_databricks_asset_bundles"]).
  - reflexivity.
  - reflexivity.
  - simpl. eexists. split; [left; reflexivity|].
    split; [reflexivity | left; reflexivity].
  - reflexivity.
Defined.

(** C5, as stated, fails: a directory under ./src satisfies the marker
    predicate, and the list of packages of the record handed to the
    packaging tool is empty. *)
Lemma marked_directory_not_discovered :
  (exists src,
      resolve nested_tree (components "./src") = Some src
      /\ is_marked_dir src ["a"; "b"])
  /\ exists r st',
      setup_py (mkWorld (Loaded (Str "0.0.1")) EPOCH nested_tree) fresh_proc
      = (inr r, st')
      /\ In (EvSetup r) (trace st')
      /\ read_str_list (heap st') (packages r) = Some [].
Proof.
  split.
  - eexists. split; [reflexivity|]. simpl.
    eexists. split; [left; reflexivity|]. split; [reflexivity|].
    eexists. split; [left; reflexivity|]. split; reflexivity.
  - eexists _, _. split; [reflexivity|]. split; [|reflexivity].
    simpl. tauto.
Qed.

(** A package called "ez_setup" directly under ./src is reached by the
    walk and left off the list, while what lies below it is listed. *)
Lemma ez_setup_not_listed :
  find_packages
    (Dir [("src", Dir [("ez_setup", Dir [("__init__.py", File)])])]) "./src"
  = []
  /\ find_packages
       (Dir [("src",
              Dir [("ez_setup",
                    Dir [("__init__.py", File);
                         ("sub", Dir [("__init__.py", File)])])])]) "./src"
     = ["ez_setup.sub"]
  /\ find_packages
       (Dir [("src",
              Dir [("pkg",
                    Dir [("__init__.py", File);
                         ("__pycache__", Dir [("__init__.py", File)])])])])
       "./src"
     = ["pkg"].
Proof. repeat split. Qed.



(** C7: two runs of the script in a row in one process, each with its own
    clock reading, both return; the two records own disjoint objects, the
    second run leaves the first record as it was, and a write to an object
    of one record does not change the other. *)
Theorem two_runs_independent (w1 w2 : world) (st : proc)
        (base1 base2 : string) :
  package_version w1 = Some base1 ->
  package_version w2 = Some base2 ->
  exists r1 st1 r2 st2,
    setup_py w1 st = (inr r1, st1)
    /\ setup_py w2 st1 = (inr r2, st2)
    /\ snapshot (heap st1) r1 = Some (setup_kwargs base1 (utcnow w1) (cwd w1))
    /\ snapshot (heap st2) r1 = Some (setup_kwargs base1 (utcnow w1) (cwd w1))
    /\ snapshot (heap st2) r2 = Some (setup_kwargs base2 (utcnow w2) (cwd w2))
    /\ (forall l, owns (heap st2) r1 l -> ~ owns (heap st2) r2 l)
    /\ (forall l o, owns (heap st2) r1 l ->
                    snapshot (<[l := o]> (heap st2)) r2 = snapshot (heap st2) r2)
    /\ (forall l o, owns (heap st2) r2 l ->
                    snapshot (<[l := o]> (heap st2)) r1 = snapshot (heap st2) r1).
Proof.
  intros Hload1 Hload2.
  pose proof (setup_py_run w1 st base1 Hload1) as Hrun1. cbv zeta in Hrun1.
  match type of Hrun1 with
  | _ = (_, ?s) => pose proof (setup_py_run w2 s base2 Hload2) as Hrun2
  end.
  cbv zeta in Hrun2. cbn [heap sys_path trace] in Hrun2.
  eexists _, _, _, _.
  split; [exact Hrun1|]. split; [exact Hrun2|]. cbn [heap].
  set (h0 := heap st).
  set (h1 := h0 ++ allocated (length h0) (cwd w1)).
  set (h2 := h1 ++ allocated (length h1) (cwd w2)).
  assert (E1 : h1 = h0 ++ allocated (length h0) (cwd w1) ++ [])
    by (unfold h1; rewrite app_nil_r; reflexivity).
  assert (E2 : h2 = h0 ++ allocated (length h0) (cwd w1)
                       ++ allocated (length h1) (cwd w2))
    by (unfold h2, h1; rewrite <- app_assoc; reflexivity).
  assert (E3 : h2 = h1 ++ allocated (length h1) (cwd w2) ++ [])
    by (unfold h2; rewrite app_nil_r; reflexivity).
  assert (Hlen : length h1 = (length h0 + 5)%nat)
    by (unfold h1; rewrite length_app; reflexivity).
  split; [|split; [|split; [|split; [|split]]]].
  - apply (snapshot_in _ _ _ _ _ _ E1).
  - apply (snapshot_in _ _ _ _ _ _ E2).
  - apply (snapshot_in _ _ _ _ _ _ E3).
  - intros l Hown1 Hown2.
    apply (owns_in _ _ _ _ _ _ E2) in Hown1.
    apply (owns_in _ _ _ _ _ _ E3) in Hown2. lia.
  - intros l o Hown1. apply (owns_in _ _ _ _ _ _ E2) in Hown1.
    apply (snapshot_insert_in _ _ _ _ _ _ _ E3). lia.
  - intros l o Hown2. apply (owns_in _ _ _ _ _ _ E3) in Hown2.
    apply (snapshot_insert_in _ _ _ _ _ _ _ E2). lia.
Qed.

Lemma two_runs_independent_witness :
  exists r1 st1 r2 st2,
    setup_py (mkWorld (Loaded (Str "0.0.1")) EPOCH repo_tree) fresh_proc = (inr r1, st1)
    /\ setup_py (mkWorld (Loaded (Str "0.0.1")) EPOCH repo_tree) st1 = (inr r2, st2)
    /\ snapshot (heap st1) r1 = Some (setup_kwargs "0.0.1" EPOCH repo_tree)
    /\ snapshot (heap st2) r1 = Some (setup_kwargs "0.0.1" EPOCH repo_tree)
    /\ snapshot (heap st2) r2 = Some (setup_kwargs "0.0.1" EPOCH repo_tree)
    /\ (forall l, owns (heap st2) r1 l -> ~ owns (heap st2) r2 l)
    /\ (forall l o, owns (heap st2) r1 l ->
                    snapshot (<[l := o]> (heap st2)) r2 = snapshot (heap st2) r2)
    /\ (forall l o, owns (heap st2) r2 l ->
                    snapshot (<[l := o]> (heap st2)) r1 = snapshot (heap st2) r1).
Proof.
  apply (two_runs_independent
           (mkWorld (Loaded (Str "0.0.1")) EPOCH repo_tree)
           (mkWorld (Loaded (Str "0.0.1")) EPOCH repo_tree)
           fresh_proc "0.0.1" "0.0.1"); reflexivity.
Defined.

(** C10: two runs that differ in the clock reading only hand over records
    that agree on every field but [version]. *)
Theorem only_version_varies (base : string) (fs : fsnode) (t1 t2 : datetime)
        (st1 st2 : proc) :
  exists r1 st1' r2 st2' v1 v2,
    setup_py (mkWorld (Loaded (Str base)) t1 fs) st1 = (inr r1, st1')
    /\ setup_py (mkWorld (Loaded (Str base)) t2 fs) st2 = (inr r2, st2')
    /\ snapshot (heap st1') r1 = Some v1
    /\ snapshot (heap st2') r2 = Some v2
    /\ version_of v1 = full_version base t1
    /\ version_of v2 = full_version base t2
    /\ name_of v1 = name_of v2
    /\ url_of v1 = url_of v2
    /\ author_of v1 = author_of v2
    /\ description_of v1 = description_of v2
    /\ packages_of v1 = packages_of v2
    /\ package_dir_of v1 = package_dir_of v2
    /\ entry_points_of v1 = entry_points_of v2
    /\ install_requires_of v1 = install_requires_of v2.
Proof.
  pose proof (setup_py_run (mkWorld (Loaded (Str base)) t1 fs) st1 base eq_refl) as H1.
  pose proof (setup_py_run (mkWorld (Loaded (Str base)) t2 fs) st2 base eq_refl) as H2.
  cbv zeta in H1, H2. cbn [utcnow cwd] in H1, H2.
  eexists _, _, _, _, _, _.
  split; [exact H1|]. split; [exact H2|]. cbn [heap].
  split.
  { rewrite <- (app_nil_r (allocated _ _)). apply snapshot_record_at. }
  split.
  { rewrite <- (app_nil_r (allocated _ _)). apply snapshot_record_at. }
  repeat split.
Qed.

End BuildDescriptor.

(** ** The test module *)

Section Tests.

(** C9: [test_main] is skipped exactly when CI or GITHUB_ACTIONS is set to
    "true"; when it runs it passes exactly when the dataset loads and has
    more than 5 rows. *)
Theorem test_main_outcome (environ : gmap string string) (count : option Z) :
  (test_main environ count = Skipped
   <-> environ !! "CI" = Some "true"
       \/ environ !! "GITHUB_ACTIONS" = Some "true")
  /\ (test_main environ count <> Skipped ->
      (test_main environ count = Passed
       <-> exists n, count = Some n /\ 5 < n)).
Proof.
  unfold test_main, skip_condition, getenv.
  destruct (bool_decide (environ !! "CI" = Some "true")) eqn:Hci;
    destruct (bool_decide (environ !! "GITHUB_ACTIONS" = Some "true")) eqn:Hga;
    rewrite ?bool_decide_eq_true, ?bool_decide_eq_false in *; simpl.
  1-3: split; [tauto | intros Hrun; exfalso; apply Hrun; reflexivity].
  split.
  - split; [|tauto]. unfold test_main_body.
    destruct count as [n|]; [destruct (5 <? n)|]; discriminate.
  - intros _. unfold test_main_body. destruct count as [n|].
    + destruct (5 <? n) eqn:Hn.
      * apply Z.ltb_lt in Hn. split; [eauto | reflexivity].
      * apply Z.ltb_ge in Hn. split; [discriminate|].
        intros (m & Hm & Hlt). injection Hm as <-. lia.
    + split; [discriminate|]. intros (m & Hm & _). discriminate.
Qed.

End Tests.

(** * Further properties *)

(** ** What the walk yields *)

Section DiscoveryExact.

Lemma is_subpackage_nonempty (root : fsnode) (path : list string) :
  is_subpackage root path -> path <> [].
Proof. destruct path; [intros [] | discriminate]. Qed.

Lemma dotted_cons (c : string) (path : list string) :
  path <> [] -> dotted (c :: path) = (c +:+ ".") +:+ dotted path.
Proof. destruct path; [congruence | reflexivity]. Qed.

(** Everything the walk yields is the dotted name of a sub-package it
    reaches, and is not excluded. *)
Lemma find_iter_sound (root : fsnode) :
  forall (prefix p : string),
    In p (_find_iter prefix root) ->
    exists path, is_subpackage root path /\ p = prefix +:+ dotted path
                 /\ exclude p = false.
Proof.
  induction root as [|entries IH] using fsnode_nested_ind;
    intros prefix p Hin; [destruct Hin|].
  rewrite find_iter_unfold in Hin. apply in_app_or in Hin as [Hin | Hin].
  - apply filter_In in Hin as [Hin Hex].
    apply negb_true_iff in Hex.
    apply in_map_iff in Hin as ([c n] & <- & Hf).
    apply filter_In in Hf as [He Hkept].
    exists [c]. split; [|split; [reflexivity | exact Hex]].
    simpl. exists n. split; [exact He|]. split; [exact Hkept | left; reflexivity].
  - apply in_flat_map in Hin as ([c n] & He & Hp).
    destruct (kept (c, n)) eqn:Hkept; [|destruct Hp].
    rewrite Forall_forall in IH.
    destruct (IH (c, n) ltac:(apply list_elem_of_In; exact He) _ _ Hp)
      as (path & Hsub & -> & Hex).
    exists (c :: path). split; [|split].
    + simpl. exists n. split; [exact He|]. split; [exact Hkept | right; exact Hsub].
    + rewrite (dotted_cons c path (is_subpackage_nonempty _ _ Hsub)).
      cbn [fst]. rewrite !app_assoc_str. reflexivity.
    + exact Hex.
Qed.

(** X1: the list [find_packages] returns holds exactly the dotted names of
    the sub-packages the walk reaches below the directory it is pointed at
    that [exclude] lets through (neither "ez_setup" nor a name that ends in
    "__pycache__"). *)
Theorem find_packages_exact (cwd : fsnode) (where_ p : string) :
  In p (find_packages cwd where_)
  <-> exists src path,
        resolve cwd (components where_) = Some src
        /\ is_subpackage src path /\ p = dotted path
        /\ exclude p = false.
Proof.
  unfold find_packages. split.
  - destruct (resolve cwd (components where_)) as [src|]; [|intros []].
    intros Hin. apply find_iter_sound in Hin as (path & Hsub & -> & Hex).
    exists src, path. split; [reflexivity|].
    split; [exact Hsub | split; [reflexivity | exact Hex]].
  - intros (src & path & -> & Hsub & -> & Hex).
    apply (find_iter_complete path "" src Hsub Hex).
Qed.

Lemma is_subpackage_parent (path : list string) :
  forall (root : fsnode) (c : string),
    path <> [] -> is_subpackage root (path ++ [c]) -> is_subpackage root path.
Proof.
  induction path as [|d rest IH]; intros root c Hne Hsub; [congruence|].
  simpl in Hsub. destruct Hsub as (n & Hin & Hkept & Hrest).
  simpl. exists n. split; [exact Hin|]. split; [exact Hkept|].
  destruct rest as [|d' rest'].
  - left. reflexivity.
  - right. destruct Hrest as [Hnil | Hsub]; [discriminate|].
    apply (IH n c); [discriminate | exact Hsub].
Qed.

(** X3: the package that encloses a sub-package the walk reaches is on
    the list, unless its own name is excluded (as "ez_setup" is). *)
Theorem find_packages_parent_closed (cwd src : fsnode) (where_ c : string)
        (path : list string) :
  resolve cwd (components where_) = Some src ->
  path <> [] ->
  is_subpackage src (path ++ [c]) ->
  exclude (dotted path) = false ->
  In (dotted path) (find_packages cwd where_).
Proof.
  intros Hsrc Hne Hsub Hex.
  apply (find_packages_complete _ _ _ _ Hsrc); [|exact Hex].
  apply (is_subpackage_parent path src c Hne Hsub).
Qed.

Lemma find_packages_parent_closed_witness :
  In (dotted ["pkg"]) (find_packages layered_tree "./src").
Proof.
  apply (find_packages_parent_closed layered_tree
           (Dir [("pkg", Dir [("__init__.py", File);
                              ("sub", Dir [("__init__.py", File)])])])
           "./src" "sub" ["pkg"]).
  - reflexivity.
  - discriminate.
  - simpl. eexists. split; [left; reflexivity|]. split; [reflexivity|].
    right. eexists. split; [right; left; reflexivity|].
    split; [reflexivity | left; reflexivity].
  - reflexivity.
Defined.

End DiscoveryExact.

(** ** No package is listed twice *)

Section DiscoveryNoDup.

Lemma has_dot_app (a b : string) :
  has_dot (a +:+ b) = has_dot a || has_dot b.
Proof.
  induction a as [|c a IH]; [reflexivity|].
  rewrite app_cons. simpl. rewrite IH. apply orb_assoc.
Qed.

Lemma kept_no_dot (e : string * fsnode) :
  kept e = true -> has_dot (fst e) = false.
Proof.
  unfold kept. intros H.
  apply andb_prop in H as [H _]. apply andb_prop in H as [_ H].
  apply negb_true_iff in H. exact H.
Qed.

(** Names without a dot are cut off at the first dot. *)
Lemma split_first_dot (c1 : string) :
  forall (c2 x y : string),
    has_dot c1 = false -> has_dot c2 = false ->
    c1 +:+ String "." x = c2 +:+ String "." y -> c1 = c2.
Proof.
  induction c1 as [|a c1 IH]; intros [|d c2] x y H1 H2 Heq.
  - reflexivity.
  - rewrite app_nil_left, app_cons in Heq. injection Heq as <- _.
    simpl in H2. discriminate.
  - rewrite app_nil_left, app_cons in Heq. injection Heq as -> _.
    simpl in H1. discriminate.
  - rewrite !app_cons in Heq. injection Heq as <- Heq.
    simpl in H1, H2. apply orb_false_iff in H1 as [_ H1].
    apply orb_false_iff in H2 as [_ H2].
    f_equal. apply (IH c2 x y H1 H2 Heq).
Qed.

Lemma app_cancel_left (p a b : string) : p +:+ a = p +:+ b -> a = b.
Proof.
  induction p as [|c p IH]; [exact (fun H => H)|].
  rewrite !app_cons. intros H. injection H as H. apply IH, H.
Qed.

(** What is found below a kept entry starts with the entry's name and a
    dot. *)
Lemma find_iter_below (prefix c p : string) (n : fsnode) :
  In p (_find_iter ((prefix +:+ c) +:+ ".") n) ->
  exists y, p = prefix +:+ (c +:+ String "." y).
Proof.
  intros Hin. apply find_iter_sound in Hin as (path & _ & -> & _).
  exists (dotted path). rewrite !app_assoc_str. reflexivity.
Qed.

Lemma names_distinct_entry (entries : list (string * fsnode))
      (e : string * fsnode) :
  names_distinct (Dir entries) -> In e entries -> names_distinct (snd e).
Proof.
  intros [_ Hall] Hin. induction entries as [|e' es IH]; [destruct Hin|].
  simpl in Hall. destruct Hall as [He' Hes].
  destruct Hin as [-> | Hin]; [exact He' | apply (IH Hes Hin)].
Qed.

Lemma NoDup_found_here (prefix : string) (entries : list (string * fsnode)) :
  NoDup (map fst entries) ->
  NoDup (map (fun e => prefix +:+ fst e) (List.filter kept entries)).
Proof.
  induction entries as [|e es IH]; intros Hnd; [constructor|].
  simpl in Hnd. apply NoDup_cons in Hnd as [Hfresh Hnd].
  simpl. destruct (kept e); [|apply IH, Hnd].
  simpl. apply NoDup_cons. split; [|apply IH, Hnd].
  intros Hin. apply list_elem_of_In, in_map_iff in Hin as (e' & Heq & He').
  apply app_cancel_left in Heq. apply filter_In in He' as [He' _].
  apply Hfresh. apply list_elem_of_In, in_map_iff. exists e'. split; assumption.
Qed.

Lemma NoDup_found_below (prefix : string) (entries : list (string * fsnode)) :
  NoDup (map fst entries) ->
  (forall e, In e entries -> forall prefix', NoDup (_find_iter prefix' (snd e))) ->
  NoDup (flat_map
           (fun e => if kept e
                     then _find_iter ((prefix +:+ fst e) +:+ ".") (snd e)
                     else [])
           entries).
Proof.
  induction entries as [|e es IH]; intros Hnd Hsub; [constructor|].
  simpl in Hnd. apply NoDup_cons in Hnd as [Hfresh Hnd].
  simpl. apply NoDup_app. split; [|split].
  - destruct (kept e); [apply Hsub; left; reflexivity | constructor].
  - intros p Hp Hp'. apply list_elem_of_In in Hp, Hp'.
    destruct (kept e) eqn:Hkept; [|destruct Hp].
    apply find_iter_below in Hp as (y & ->).
    apply in_flat_map in Hp' as (e' & He' & Hp').
    destruct (kept e') eqn:Hkept'; [|destruct Hp'].
    apply find_iter_below in Hp' as (y' & Heq).
    apply app_cancel_left in Heq.
    apply split_first_dot in Heq; [|apply kept_no_dot; assumption..].
    apply Hfresh. apply list_elem_of_In, in_map_iff. exists e'.
    split; [symmetry; exact Heq | exact He'].
  - apply IH; [exact Hnd|]. intros e' He'. apply Hsub. right. exact He'.
Qed.

Lemma find_iter_NoDup (root : fsnode) :
  forall prefix, names_distinct root -> NoDup (_find_iter prefix root).
Proof.
  induction root as [|entries IH] using fsnode_nested_ind;
    intros prefix Hdist; [constructor|].
  rewrite Forall_forall in IH.
  rewrite find_iter_unfold. apply NoDup_app. split; [|split].
  - apply NoDup_ListNoDup, List.NoDup_filter, NoDup_ListNoDup.
    apply NoDup_found_here. apply Hdist.
  - intros p Hp Hp'. apply list_elem_of_In in Hp, Hp'.
    apply filter_In in Hp as [Hp _].
    apply in_map_iff in Hp as (e & <- & He).
    apply filter_In in He as [_ Hkept].
    apply in_flat_map in Hp' as (e' & He' & Hp').
    destruct (kept e') eqn:Hkept'; [|destruct Hp'].
    apply find_iter_below in Hp' as (y & Heq).
    apply app_cancel_left in Heq.
    apply kept_no_dot in Hkept. rewrite Heq, has_dot_app in Hkept.
    simpl in Hkept. rewrite orb_true_r in Hkept. discriminate.
  - apply NoDup_found_below; [apply Hdist|].
    intros e He prefix'. apply IH; [apply list_elem_of_In, He|].
    apply (names_distinct_entry entries e Hdist He).
Qed.

Lemma names_distinct_resolve (path : list string) :
  forall (cwd src : fsnode),
    names_distinct cwd -> resolve cwd path = Some src -> names_distinct src.
Proof.
  induction path as [|c rest IH]; intros cwd src Hdist Hres.
  - simpl in Hres. injection Hres as <-. exact Hdist.
  - simpl in Hres. destruct (String.eqb c "." || String.eqb c "");
      [apply (IH cwd src Hdist Hres)|].
    destruct (lookup_entry c cwd) as [n|] eqn:Hlook; [|discriminate].
    apply (IH n src); [|exact Hres].
    destruct cwd as [|entries]; [discriminate|].
    simpl in Hlook.
    destruct (List.find (fun e => String.eqb (fst e) c) entries)
      as [e|] eqn:Hfind; [|discriminate].
    injection Hlook as <-. apply find_some in Hfind as [He _].
    apply (names_distinct_entry entries e Hdist He).
Qed.

(** X4: in a tree where no directory has two entries of the same name,
    [find_packages] lists no package twice. *)
Theorem find_packages_NoDup (cwd : fsnode) (where_ : string) :
  names_distinct cwd -> NoDup (find_packages cwd where_).
Proof.
  intros Hdist. unfold find_packages.
  destruct (resolve cwd (components where_)) as [src|] eqn:Hres;
    [|constructor].
  apply find_iter_NoDup. apply (names_distinct_resolve _ _ _ Hdist Hres).
Qed.

Lemma find_packages_NoDup_witness :
  NoDup (find_packages layered_tree "./src").
Proof.
  apply (find_packages_NoDup layered_tree "./src").
  simpl. repeat split; apply (bool_decide_unpack _); vm_compute; exact I.
Defined.

End DiscoveryNoDup.

(** ** Version strings determine the build *)

Section VersionOrder.

Lemma posix_second_compare (a b : datetime) :
  valid_datetime a -> valid_datetime b ->
  (posix_second a ?= posix_second b) = (second_count a ?= second_count b).
Proof.
  intros Ha Hb. rewrite !posix_second_count by assumption.
  destruct (Z.compare_spec (second_count a) (second_count b)) as [H|H|H].
  - rewrite H. apply Z.compare_refl.
  - apply Z.compare_lt_iff. lia.
  - apply Z.compare_gt_iff. lia.
Qed.

(** X5: for one base version, the version strings of two builds are equal
    exactly when the two clock readings fall in the same second; when both
    readings are in the year 1000 or later, the strings compare exactly as
    those seconds do. *)
Theorem full_version_order_exact (base : string) (a b : datetime) :
  valid_datetime a -> valid_datetime b ->
  (full_version base a = full_version base b
   <-> posix_second a = posix_second b)
  /\ (1000 <= year a -> 1000 <= year b ->
      String.compare (full_version base a) (full_version base b)
      = (posix_second a ?= posix_second b)).
Proof.
  intros Ha Hb. split; [split|].
  - intros Heq. apply full_version_split in Heq as [_ Heq]; [|assumption..].
    apply local_version_fields in Heq; [|assumption..].
    rewrite cmp_fields_second_count in Heq by assumption.
    apply Z.compare_eq in Heq.
    rewrite !posix_second_count by assumption. lia.
  - intros Heq. rewrite !posix_second_count in Heq by assumption.
    assert (Hcmp : cmp_fields a b = Eq).
    { rewrite cmp_fields_second_count by assumption.
      apply Z.compare_eq_iff. lia. }
    apply cmp_fields_eq in Hcmp as (Hy & Hm & Hd & Hh & Hmi & Hs).
    unfold full_version. rewrite !local_version_tail by assumption.
    unfold mmdd_hhmmss. rewrite Hy, Hm, Hd, Hh, Hmi, Hs. reflexivity.
  - intros Hya Hyb.
    rewrite compare_full_version, posix_second_compare by assumption.
    reflexivity.
Qed.

Lemma full_version_order_exact_witness :
  let a := mkDatetime 2024 12 31 23 59 59 999999 in
  let b := mkDatetime 2025 1 1 0 0 0 0 in
  (full_version "1.0" a = full_version "1.0" b
   <-> posix_second a = posix_second b)
  /\ String.compare (full_version "1.0" a) (full_version "1.0" b)
     = (posix_second a ?= posix_second b).
Proof.
  destruct (full_version_order_exact "1.0"
              (mkDatetime 2024 12 31 23 59 59 999999)
              (mkDatetime 2025 1 1 0 0 0 0)) as [Hiff Hord].
  - split; reflexivity.
  - split; reflexivity.
  - split; [exact Hiff | apply Hord; simpl; lia].
Defined.

(** X6: a full version string determines both parts it was made of: two
    builds with equal version strings have the same base version (even one
    that contains a "+") and clock readings in the same second. *)
Theorem full_version_injective (base1 base2 : string) (a b : datetime) :
  valid_datetime a -> valid_datetime b ->
  full_version base1 a = full_version base2 b ->
  base1 = base2 /\ local_version a = local_version b
  /\ posix_second a = posix_second b.
Proof.
  intros Ha Hb Heq.
  apply full_version_split in Heq as [Hbase Hstamp]; [|assumption..].
  split; [exact Hbase|]. split; [exact Hstamp|].
  apply local_version_fields in Hstamp; [|assumption..].
  rewrite cmp_fields_second_count in Hstamp by assumption.
  apply Z.compare_eq in Hstamp.
  rewrite !posix_second_count by assumption. lia.
Qed.

Lemma full_version_injective_witness :
  let a := mkDatetime 2024 3 5 8 9 10 1 in
  let b := mkDatetime 2024 3 5 8 9 10 2 in
  "0.0.1" = "0.0.1" /\ local_version a = local_version b
  /\ posix_second a = posix_second b.
Proof.
  apply (full_version_injective "0.0.1" "0.0.1"
           (mkDatetime 2024 3 5 8 9 10 1) (mkDatetime 2024 3 5 8 9 10 2)).
  - split; reflexivity.
  - split; reflexivity.
  - reflexivity.
Defined.

End VersionOrder.

(** ** What a run does to the process *)

Section RunEffects.





End RunEffects.

(** ** The objects of one record *)

Section RecordObjects.

Lemma length_allocated_heap (h0 : list pyobj) (n : nat) (fs : fsnode) :
  length (h0 ++ allocated n fs) = (length h0 + 5)%nat.
Proof. rewrite length_app. reflexivity. Qed.

(** X9: the lists of one record are objects of their own: replacing the
    contents of the list [packages] refers to changes the packages the
    record reads back as and nothing else, and likewise for
    [install_requires]. *)
Theorem record_lists_separate (w : world) (st : proc) (base : string)
        (pk ir : list string) :
  package_version w = Some base ->
  exists r st',
    setup_py w st = (inr r, st')
    /\ snapshot (<[packages r := OList (VStr <$> pk)]> (heap st')) r
       = Some (with_packages pk (setup_kwargs base (utcnow w) (cwd w)))
    /\ snapshot (<[install_requires r := OList (VStr <$> ir)]> (heap st')) r
       = Some (with_install_requires ir
                 (setup_kwargs base (utcnow w) (cwd w))).
Proof.
  intros Hload.
  pose proof (setup_py_run w st base Hload) as Hrun. cbv zeta in Hrun.
  eexists _, _. split; [exact Hrun|]. cbn [heap].
  set (h0 := heap st).
  pose proof (length_allocated_heap h0 (length h0) (cwd w)) as Hlen.
  pose proof (fun k o H =>
                lookup_allocated h0 (allocated (length h0) (cwd w)) [] k o H)
    as Hat.
  rewrite app_nil_r in Hat.
  pose proof (lookup_allocated_0 h0 (allocated (length h0) (cwd w)) [] _ eq_refl)
    as Hat0.
  rewrite app_nil_r in Hat0.
  unfold snapshot, read_str_list, read_str_dict, read_list_dict, record_at.
  cbn [packages package_dir entry_points install_requires name version url
       author description].
  split.
  - rewrite list_lookup_insert_eq by lia.
    rewrite !list_lookup_insert_ne by lia.
    rewrite (Hat 1%nat _ eq_refl), (Hat 3%nat _ eq_refl), (Hat 4%nat _ eq_refl).
    rewrite mapM_as_str.
    cbn [mapM mbind option_bind mret option_ret fst snd as_str].
    unfold read_str_list. rewrite list_lookup_insert_ne by lia.
    rewrite (Hat 2%nat _ eq_refl). reflexivity.
  - rewrite list_lookup_insert_eq by lia.
    rewrite !list_lookup_insert_ne by lia.
    rewrite Hat0, (Hat 1%nat _ eq_refl), (Hat 3%nat _ eq_refl).
    rewrite !mapM_as_str.
    cbn [mapM mbind option_bind mret option_ret fst snd as_str].
    unfold read_str_list. rewrite list_lookup_insert_ne by lia.
    rewrite (Hat 2%nat _ eq_refl). reflexivity.
Qed.

Lemma record_lists_separate_witness :
  exists r st',
    setup_py (mkWorld (Loaded (Str "0.0.1")) EPOCH repo_tree) fresh_proc = (inr r, st')
    /\ snapshot (<[packages r := OList (VStr <$> ["other"])]> (heap st')) r
       = Some (with_packages ["other"]
                 (setup_kwargs "0.0.1" EPOCH repo_tree))
    /\ snapshot (<[install_requires r := OList (VStr <$> [])]> (heap st')) r
       = Some (with_install_requires []
                 (setup_kwargs "0.0.1" EPOCH repo_tree)).
Proof.
  apply (record_lists_separate (mkWorld (Loaded (Str "0.0.1")) EPOCH repo_tree)
           fresh_proc "0.0.1" ["other"] []).
  reflexivity.
Defined.

End RecordObjects.

(** ** The skip decision *)

Section TestModule.



End TestModule.
